(** * FHIR canonical manager: package scanner, filesystem probes, search

    A shallow embedding of [src/scanner/package.ts] ([scanPackage]), of the
    search pipeline of [tools/search-canonical.ts] ([main]), and of the
    collaborators they import ([fileExists], [isFhirPackage],
    [processIndex], the cache search), with the properties the
    specification states about them.

    JavaScript strings are modelled as [string]; an object used as a map
    is a [gmap]; a function that can throw returns a [Completion]; the
    cache that [scanPackage] mutates is threaded explicitly. *)

From stdpp Require Import base option list strings gmap fin_maps pretty.
From Stdlib Require Import ZArith Ascii.

(** ** Completions: a call returns normally or throws *)

Inductive Exn : Type :=
| TypeError
| SyntaxError
| SystemError (code : string)
| OtherError.

Inductive Completion (A : Type) : Type :=
| Normal (a : A)
| Thrown (e : Exn).

Arguments Normal {A} a.
Arguments Thrown {A} e.

#[global] Instance Completion_ret : MRet Completion := fun _ a => Normal a.

#[global] Instance Completion_bind : MBind Completion := fun _ _ f c =>
  match c with
  | Normal a => f a
  | Thrown e => Thrown e
  end.

Definition is_normal {A} (c : Completion A) : bool :=
  match c with Normal _ => true | Thrown _ => false end.

(** ** JSON values, as [JSON.parse] produces them *)

(** A number is carried as its decimal rendering (what [String(n)] gives):
    the code never computes with one.  The members of an object are in
    property order and their keys are distinct. *)
#[warnings="-register-all"]
Inductive JValue : Type :=
| JNull
| JBool (b : bool)
| JNumber (repr : string)
| JString (s : string)
| JArray (items : list JValue)
| JObject (members : list (string * JValue)).

(** A JavaScript value read out of a parsed document: [None] is
    [undefined]. *)
Abbreviation JsValue := (option JValue).

Fixpoint assoc {A} (k : string) (ms : list (string * A)) : option A :=
  match ms with
  | [] => None
  | (k', v) :: rest => if String.eqb k k' then Some v else assoc k rest
  end.

(** The member [k] of a parsed value itself, [undefined] where it has
    none: only an object has members of its own under a name. *)
Definition member (v : JValue) (k : string) : JsValue :=
  match v with
  | JObject ms => assoc k ms
  | _ => None
  end.

(** [v.k] for a key [k] that no prototype defines ([name], [version],
    [canonical], [fhirVersions]): reading a property of [null] throws a
    TypeError, an object yields its own member or [undefined], and every
    other value yields [undefined]. *)
Definition get_member (v : JValue) (k : string) : Completion JsValue :=
  match v with
  | JNull => Thrown TypeError
  | _ => Normal (member v k)
  end.

(** [String(v)] for a parsed value.  An array joins its elements with a
    comma, [null] elements giving the empty string; an object gives
    [[object Object]] through [Object.prototype.toString], unless it has
    a member [toString] of its own, which is not callable and leaves no
    primitive to convert to: a TypeError. *)
Fixpoint ToString (v : JValue) : Completion string :=
  match v with
  | JNull => Normal "null"
  | JBool b => Normal (if b then "true" else "false")
  | JNumber repr => Normal repr
  | JString s => Normal s
  | JArray items =>
      (fix join (l : list JValue) : Completion string :=
         match l with
         | [] => Normal EmptyString
         | x :: rest =>
             match match x with JNull => Normal EmptyString | _ => ToString x end with
             | Thrown e => Thrown e
             | Normal s =>
                 match rest with
                 | [] => Normal s
                 | _ :: _ =>
                     match join rest with
                     | Normal t => Normal (s +:+ "," +:+ t)
                     | Thrown e => Thrown e
                     end
                 end
             end
         end) items
  | JObject ms =>
      match assoc "toString" ms with
      | Some _ => Thrown TypeError
      | None => Normal "[object Object]"
      end
  end.

(** The key of [obj[v]]: [undefined] names the property [undefined]. *)
Definition ToPropertyKey (v : JsValue) : Completion string :=
  match v with
  | None => Normal "undefined"
  | Some j => ToString j
  end.

(** ** Data model *)

Record PackageId : Type := {
  pid_name : JsValue;
  pid_version : JsValue;
}.

Record PackageInfo : Type := {
  pi_id : PackageId;
  pi_path : string;
  pi_canonical : JsValue;
  pi_fhirVersions : JsValue;
}.

(** Modelled from the spec: the index entry of [../types] (section 3),
    with its optional string fields and the back-reference to the owning
    package. *)
Record IndexEntry : Type := {
  e_url : option string;
  e_type : option string;
  e_kind : option string;
  e_version : option string;
  e_package : option PackageInfo;
}.

(** Modelled from the spec: the cache of [../cache/core] (section 3), a
    mapping from package name to PackageInfo and the sequence of entries
    in ingestion order. *)
Record Cache : Type := {
  packages : gmap string PackageInfo;
  entries : list IndexEntry;
}.

Definition empty_cache : Cache := {| packages := ∅; entries := [] |}.

Definition set_package (k : string) (info : PackageInfo) (c : Cache) : Cache :=
  {| packages := <[k := info]> (packages c); entries := entries c |}.

Definition append_entries (es : list IndexEntry) (c : Cache) : Cache :=
  {| packages := packages c; entries := entries c ++ es |}.

(** ** The scanner *)

(** What [scanner/package.ts] imports.  [fs.readFile], [JSON.parse] and
    [path.join] belong to the platform; [fileExists] and [processIndex]
    are the project's own modules [../fs] and [./processor], whose bodies
    the scanner does not depend on: each may return or throw, and
    [processIndex] may change the cache it is handed before doing
    either. *)
Record Imports : Type := {
  path_join : string -> string -> string;
  fs_readFile : string -> Completion string;
  JSON_parse : string -> Completion JValue;
  fileExists : string -> Completion bool;
  processIndex : string -> JValue -> Cache -> Cache * Completion unit;
}.

(** One call of the Index Processor, as seen from the scanner. *)
Record Call : Type := ProcessIndex {
  call_dir : string;
  call_manifest : JValue;
}.

(** The state of a scan: the cache argument, and the calls made to the
    Index Processor so far (kept so that statements can speak of them). *)
Record World : Type := {
  w_cache : Cache;
  w_calls : list Call;
}.

Definition Scan (A : Type) : Type := World -> World * Completion A.

#[global] Instance Scan_ret : MRet Scan := fun _ a w => (w, Normal a).

#[global] Instance Scan_bind : MBind Scan := fun _ _ f m w =>
  match m w with
  | (w', Normal a) => f a w'
  | (w', Thrown e) => (w', Thrown e)
  end.

(** An expression that touches no state. *)
Definition eval {A} (c : Completion A) : Scan A := fun w => (w, c).

(** [try { body } catch { }]: whatever [body] threw is dropped, whatever
    it did to the state stays. *)
Definition try_catch_ignore (body : Scan unit) : Scan unit := fun w =>
  match body w with
  | (w', _) => (w', Normal tt)
  end.

(** [cache.packages[k] = info] *)
Definition assign_package (k : string) (info : PackageInfo) : Scan unit := fun w =>
  ({| w_cache := set_package k info (w_cache w); w_calls := w_calls w |}, Normal tt).

(** The object literal of lines 21-26. *)
Definition make_packageInfo (packagePath : string) (packageJson : JValue)
  : Completion PackageInfo :=
  name ← get_member packageJson "name";
  version ← get_member packageJson "version";
  canonical ← get_member packageJson "canonical";
  fhirVersions ← get_member packageJson "fhirVersions";
  mret {| pi_id := {| pid_name := name; pid_version := version |};
          pi_path := packagePath;
          pi_canonical := canonical;
          pi_fhirVersions := fhirVersions |}.

(** The key and the PackageInfo under which a parsed manifest is
    registered, when lines 21-27 complete. *)
Definition registration (packagePath : string) (packageJson : JValue)
  : Completion (string * PackageInfo) :=
  packageInfo ← make_packageInfo packagePath packageJson;
  name ← get_member packageJson "name";
  key ← ToPropertyKey name;
  mret (key, packageInfo).

Section Scanner.
Context (I : Imports).

(** [await processIndex(dir, manifest, cache)] *)
Definition call_processIndex (dir : string) (manifest : JValue) : Scan unit := fun w =>
  match processIndex I dir manifest (w_cache w) with
  | (c', r) =>
      ({| w_cache := c'; w_calls := w_calls w ++ [ProcessIndex dir manifest] |}, r)
  end.

(** Lines 17-34, the body of the [try]. *)
Definition scanPackage_body (packagePath : string) : Scan unit :=
  let packageJsonPath := path_join I packagePath "package.json" in
  packageJsonContent ← eval (fs_readFile I packageJsonPath);
  packageJson ← eval (JSON_parse I packageJsonContent);
  packageInfo ← eval (make_packageInfo packagePath packageJson);
  name ← eval (get_member packageJson "name");
  key ← eval (ToPropertyKey name);
  assign_package key packageInfo;;
  call_processIndex packagePath packageJson;;
  let examplesPath := path_join I packagePath "examples" in
  found ← eval (fileExists I (path_join I examplesPath ".index.json"));
  if (found : bool) then call_processIndex examplesPath packageJson
  else mret tt.

Definition scanPackage (packagePath : string) : Scan unit :=
  try_catch_ignore (scanPackage_body packagePath).

(** [scanPackage(packagePath, cache)] as the caller sees it: the cache
    afterwards, and how the call completed. *)
Definition scan (packagePath : string) (cache : Cache) : Cache * Completion unit :=
  match scanPackage packagePath {| w_cache := cache; w_calls := [] |} with
  | (w, r) => (w_cache w, r)
  end.

(** The calls to the Index Processor that one scan makes. *)
Definition scan_calls (packagePath : string) (cache : Cache) : list Call :=
  w_calls (scanPackage packagePath {| w_cache := cache; w_calls := [] |}).1.

(** The manifest of a package directory: what reading and parsing
    [package.json] gives. *)
Definition read_manifest (packagePath : string) : Completion JValue :=
  packageJsonContent ← fs_readFile I (path_join I packagePath "package.json");
  JSON_parse I packageJsonContent.

(** The probe of line 32. *)
Definition examples_index_exists (packagePath : string) : Completion bool :=
  fileExists I (path_join I (path_join I packagePath "examples") ".index.json").

Definition examplesPath (packagePath : string) : string :=
  path_join I packagePath "examples".

End Scanner.

(** The Index Processor leaves [cache.packages] as it found it (section
    4.3 has it append to [cache.entries] only). *)
Definition keeps_packages (I : Imports) : Prop :=
  ∀ dir manifest c, packages (processIndex I dir manifest c).1 = packages c.

(** The manifest of [packagePath] cannot be read, or its text is not
    JSON. *)
Definition manifest_missing_or_unparsable (I : Imports) (packagePath : string) : Prop :=
  (∃ e, fs_readFile I (path_join I packagePath "package.json") = Thrown e)
  ∨ (∃ text e, fs_readFile I (path_join I packagePath "package.json") = Normal text
               ∧ JSON_parse I text = Thrown e).

(** A step after the registration throws: [later_throw I P m c1 c'] says
    that, the manifest [m] of [P] being registered in [c1], index
    processing of the package root, the probe of the examples index, or
    index processing of the examples throws, the cache being [c'] at
    that point. *)
Inductive later_throw (I : Imports) (P : string) (m : JValue) (c1 : Cache)
  : Cache -> Prop :=
| throw_in_root_index c2 e :
    processIndex I P m c1 = (c2, Thrown e) ->
    later_throw I P m c1 c2
| throw_in_examples_probe c2 e :
    processIndex I P m c1 = (c2, Normal tt) ->
    examples_index_exists I P = Thrown e ->
    later_throw I P m c1 c2
| throw_in_examples_index c2 c3 e :
    processIndex I P m c1 = (c2, Normal tt) ->
    examples_index_exists I P = Normal true ->
    processIndex I (examplesPath I P) m c2 = (c3, Thrown e) ->
    later_throw I P m c1 c3.

(** Whether the probe of line 32 came back with [true]. *)
Definition probe_found (probe : Completion bool) : bool :=
  match probe with
  | Normal true => true
  | _ => false
  end.

(** The PackageInfo that lines 21-26 build from a manifest that is not
    [null]: each field is the member of that name, or [undefined]. *)
Definition info_of (packagePath : string) (packageJson : JValue) : PackageInfo :=
  {| pi_id := {| pid_name := member packageJson "name";
                 pid_version := member packageJson "version" |};
     pi_path := packagePath;
     pi_canonical := member packageJson "canonical";
     pi_fhirVersions := member packageJson "fhirVersions" |}.

(** ** Filesystem probes *)

Module Fs.

(** Modelled from the spec: the filesystem behind the probes of
    [../fs] (section 4.1), whose bodies are not part of the sources at
    hand (only their tests are).  A path string names a file, names a
    directory with the names directly under it, or fails to resolve
    with an error; the empty string names nothing. *)
Inductive Node : Type :=
| File (content : string)
| Directory (names : list string).

Record FileSystem : Type := {
  resolve : string -> Completion Node;
  resolve_empty_path : is_normal (resolve EmptyString) = false;
}.

(** [fs.access(path)]: returns for a file or directory that can be
    reached, throws the error of the resolution otherwise. *)
Definition access (fs : FileSystem) (path : string) : Completion unit :=
  _ ← resolve fs path; mret tt.

(** [fs.readFile(path, "utf-8")] *)
Definition readFile (fs : FileSystem) (path : string) : Completion string :=
  node ← resolve fs path;
  match node with
  | File content => mret content
  | Directory _ => Thrown (SystemError "EISDIR")
  end.

(** Modelled from the spec: [fileExists] of [../fs].  Any access error
    is taken as does-not-exist. *)
Definition fileExists (fs : FileSystem) (path : string) : Completion bool :=
  match access fs path with
  | Normal _ => Normal true
  | Thrown _ => Normal false
  end.

Definition has_name (n : string) (names : list string) : bool :=
  existsb (String.eqb n) names.

(** Modelled from the spec: [isFhirPackage] of [../fs], the
    [isIndexedPackage] of section 4.1: whether the hidden index
    manifest is directly under [dirPath]. *)
Definition isFhirPackage (fs : FileSystem) (dirPath : string) : Completion bool :=
  match resolve fs dirPath with
  | Normal (Directory names) => Normal (has_name ".index.json" names)
  | Normal (File _) => Normal false
  | Thrown _ => Normal false
  end.

End Fs.

(** ** Index Processor *)

Module Processor.

(** A resource descriptor of an index manifest (section 6). *)
Record Descriptor : Type := {
  d_url : option string;
  d_type : option string;
  d_kind : option string;
  d_version : option string;
}.

Definition entry_of (pkg : option PackageInfo) (d : Descriptor) : IndexEntry :=
  {| e_url := d_url d; e_type := d_type d; e_kind := d_kind d;
     e_version := d_version d; e_package := pkg |}.

(** The PackageInfo registered under the manifest's name. *)
Definition registered_package (packageManifest : JValue) (cache : Cache)
  : option PackageInfo :=
  match name ← get_member packageManifest "name"; ToPropertyKey name with
  | Normal key => packages cache !! key
  | Thrown _ => None
  end.

(** Modelled from the spec: [processIndex] of [./processor] (section
    4.3), whose body is not part of the sources at hand.  [read_index]
    gives the descriptors that the hidden index manifest of a directory
    enumerates, in file order, and [None] where the manifest is
    unreadable or malformed; processing is then given up for that
    directory, the cache staying as it was. *)
Definition processIndex (read_index : string -> option (list Descriptor))
    (directory : string) (packageManifest : JValue) (cache : Cache)
  : Cache * Completion unit :=
  match read_index directory with
  | None => (cache, Normal tt)
  | Some descriptors =>
      let pkg := registered_package packageManifest cache in
      (append_entries (map (entry_of pkg) descriptors) cache, Normal tt)
  end.

End Processor.

(** ** Cache search *)

Module Search.

(** Modelled from the spec: the criteria object of section 4.4, every
    field of which may be left out. *)
Record Criteria : Type := {
  c_type : option string;
  c_kind : option string;
  c_version : option string;
  c_package : option PackageInfo;
}.

Section WithPackageEquality.
(** How a [package] criterion is compared with a back-reference
    (identity or name equality, section 4.4). *)
Context (same_package : PackageInfo -> PackageInfo -> bool).

(** Exact string equality with a field that may be absent. *)
Definition field_is (field : option string) (wanted : string) : bool :=
  match field with
  | Some s => String.eqb s wanted
  | None => false
  end.

Definition package_is (ref : option PackageInfo) (wanted : PackageInfo) : bool :=
  match ref with
  | Some p => same_package wanted p
  | None => false
  end.

(** A criterion that was left out constrains nothing. *)
Definition holds {A} (criterion : option A) (test : A -> bool) : bool :=
  match criterion with
  | Some a => test a
  | None => true
  end.

(** Modelled from the spec: an entry matches when every criterion that
    was supplied is met (section 4.4). *)
Definition matches (criteria : Criteria) (e : IndexEntry) : bool :=
  holds (c_type criteria) (field_is (e_type e))
  && holds (c_kind criteria) (field_is (e_kind e))
  && holds (c_version criteria) (field_is (e_version e))
  && holds (c_package criteria) (package_is (e_package e)).

(** Modelled from the spec: [search] of the Canonical Cache (section
    4.4), whose body is not part of the sources at hand: the entries
    are gone through in ingestion order and the matching ones kept. *)
Fixpoint search_entries (criteria : Criteria) (es : list IndexEntry)
  : list IndexEntry :=
  match es with
  | [] => []
  | e :: rest =>
      if matches criteria e then e :: search_entries criteria rest
      else search_entries criteria rest
  end.

(** Modelled from the spec: [search(criteria)] on a cache. *)
Definition search (criteria : Criteria) (cache : Cache) : list IndexEntry :=
  search_entries criteria (entries cache).

End WithPackageEquality.

(** Name equality of two packages, for names that are strings. *)
Definition same_name (p q : PackageInfo) : bool :=
  match pid_name (pi_id p), pid_name (pi_id q) with
  | Some (JString a), Some (JString b) => String.eqb a b
  | _, _ => false
  end.

End Search.

(** ** The search tool *)

Module Tool.

Inductive Format : Type := json | table | csv.

(** [SearchOptions], as [parseArgs] fills it. *)
Record SearchOptions : Type := {
  o_url : option string;
  o_type : option string;
  o_kind : option string;
  o_package : option string;
  o_version : option string;
  o_format : Format;
  o_limit : option Z;
  o_help : bool;
}.

(** A value stored in [searchParams]. *)
Inductive Param : Type :=
| PString (s : string)
| PPackage (p : PackageId).

(** The manager, as far as [main] uses it. *)
Record Manager : Type := {
  init : Completion unit;
  m_packages : Completion (list PackageId);
  searchEntries : gmap string Param -> Completion (list IndexEntry);
  destroy : Completion unit;
}.

(** What a run of [main] comes to: the process exits with a code, the
    results having been printed on the way or not. *)
Inductive Outcome : Type :=
| Exit (code : Z)
| Printed (format : Format) (results : list IndexEntry) (after : Completion unit).

(** [if (s)] on an optional string: absent and empty are both falsy. *)
Definition truthy (o : option string) : option string :=
  match o with
  | Some EmptyString => None
  | other => other
  end.

Definition lower_char (c : ascii) : ascii :=
  let n := nat_of_ascii c in
  if (65 <=? n)%nat && (n <=? 90)%nat then ascii_of_nat (n + 32) else c.

(** [s.toLowerCase()], on the ASCII range that a canonical URL is
    written in. *)
Fixpoint toLowerCase (s : string) : string :=
  match s with
  | EmptyString => EmptyString
  | String c rest => String (lower_char c) (toLowerCase rest)
  end.

(** [s.includes(part)] *)
Fixpoint includes (s part : string) : bool :=
  String.prefix part s
  || match s with
     | EmptyString => false
     | String _ rest => includes rest part
     end.

(** [if (options.f) searchParams.f = options.f] *)
Definition set_if (key : string) (o : option string) (params : gmap string Param)
  : gmap string Param :=
  match truthy o with
  | Some s => <[key := PString s]> params
  | None => params
  end.

(** [p.name === options.package] *)
Definition name_is (wanted : string) (p : PackageId) : bool :=
  match pid_name p with
  | Some (JString s) => String.eqb s wanted
  | _ => false
  end.

(** Lines 389-407: the object handed to [searchEntries]; [Thrown] when
    the manager throws, [Normal None] when the package is not found
    and the process exits. *)
Definition build_searchParams (options : SearchOptions) (manager : Manager)
  : Completion (option (gmap string Param)) :=
  let searchParams : gmap string Param := ∅ in
  let searchParams := set_if "type" (o_type options) searchParams in
  let searchParams := set_if "kind" (o_kind options) searchParams in
  let searchParams := set_if "version" (o_version options) searchParams in
  match truthy (o_package options) with
  | Some wanted =>
      packages ← m_packages manager;
      match find (name_is wanted) packages with
      | Some pkg => mret (Some (<["package" := PPackage pkg]> searchParams))
      | None => mret None
      end
  | None => mret (Some searchParams)
  end.

(** The predicate of the filter of lines 415-417:
    [entry.url?.toLowerCase().includes(urlLower)]. *)
Definition url_matches (urlLower : string) (entry : IndexEntry) : bool :=
  match e_url entry with
  | Some url => includes (toLowerCase url) urlLower
  | None => false
  end.

(** Lines 413-418. *)
Definition filter_by_url (options : SearchOptions) (results : list IndexEntry)
  : list IndexEntry :=
  match truthy (o_url options) with
  | Some url =>
      let urlLower := toLowerCase url in
      List.filter (url_matches urlLower) results
  | None => results
  end.

(** Lines 421-423. *)
Definition apply_limit (options : SearchOptions) (results : list IndexEntry)
  : list IndexEntry :=
  match o_limit options with
  | Some n => if (0 <? n)%Z then take (Z.to_nat n) results else results
  | None => results
  end.

(** Lines 385-439, the body of the [try]: the results that reach the
    formatter, or [None] when the package was not found. *)
Definition main_try (options : SearchOptions) (manager : Manager)
  : Completion (option (list IndexEntry)) :=
  init manager;;
  built ← build_searchParams options manager;
  match built with
  | None => mret None
  | Some searchParams =>
      results ← searchEntries manager searchParams;
      let results := filter_by_url options results in
      let results := apply_limit options results in
      mret (Some results)
  end.

Definition main (options : SearchOptions) (manager : Manager) : Outcome :=
  if o_help options then Exit 0
  else
    match main_try options manager with
    | Thrown _ => Exit 1
    | Normal None => Exit 1
    | Normal (Some results) => Printed (o_format options) results (destroy manager)
    end.

End Tool.

(** ** A package store to run the definitions on *)

Module Fixtures.

(** The platform's [path.join], on the plain paths used below. *)
Definition join (a b : string) : string := a +:+ "/" +:+ b.

Definition quoted (s : string) : string :=
  String (ascii_of_nat 34) s +:+ String (ascii_of_nat 34) EmptyString.

(** The text of the manifest of [/pkgs/core]. *)
Definition core_manifest_text : string :=
  "{" +:+ quoted "name" +:+ ":" +:+ quoted "hl7.fhir.r4.core" +:+ ","
      +:+ quoted "version" +:+ ":" +:+ quoted "4.0.1" +:+ ","
      +:+ quoted "canonical" +:+ ":" +:+ quoted "http://hl7.org/fhir" +:+ "}".

Definition core_manifest : JValue :=
  JObject [("name", JString "hl7.fhir.r4.core");
           ("version", JString "4.0.1");
           ("canonical", JString "http://hl7.org/fhir")].

Definition core_info : PackageInfo :=
  {| pi_id := {| pid_name := Some (JString "hl7.fhir.r4.core");
                 pid_version := Some (JString "4.0.1") |};
     pi_path := "/pkgs/core";
     pi_canonical := Some (JString "http://hl7.org/fhir");
     pi_fhirVersions := None |}.

(** Three package directories: [/pkgs/core] is well formed and has an
    examples index, the manifest of [/pkgs/broken] is not JSON, the
    manifest of [/pkgs/null] is the JSON text [null] and that of
    [/pkgs/bare] the empty object; [/pkgs/plain] holds an [index.json]
    without the leading dot. *)
Definition store (path : string) : Completion Fs.Node :=
  if String.eqb path "/pkgs/core" then
    Normal (Fs.Directory ["package.json"; ".index.json"; "examples"])
  else if String.eqb path "/pkgs/core/package.json" then
    Normal (Fs.File core_manifest_text)
  else if String.eqb path "/pkgs/core/.index.json" then Normal (Fs.File EmptyString)
  else if String.eqb path "/pkgs/core/examples" then
    Normal (Fs.Directory [".index.json"])
  else if String.eqb path "/pkgs/core/examples/.index.json" then Normal (Fs.File EmptyString)
  else if String.eqb path "/pkgs/broken" then Normal (Fs.Directory ["package.json"])
  else if String.eqb path "/pkgs/broken/package.json" then Normal (Fs.File "{ not json")
  else if String.eqb path "/pkgs/null" then
    Normal (Fs.Directory ["package.json"; "examples"])
  else if String.eqb path "/pkgs/null/package.json" then Normal (Fs.File "null")
  else if String.eqb path "/pkgs/null/examples" then
    Normal (Fs.Directory [".index.json"])
  else if String.eqb path "/pkgs/null/examples/.index.json" then Normal (Fs.File EmptyString)
  else if String.eqb path "/pkgs/bare" then Normal (Fs.Directory ["package.json"])
  else if String.eqb path "/pkgs/bare/package.json" then Normal (Fs.File "{}")
  else if String.eqb path "/pkgs/plain" then
    Normal (Fs.Directory ["package.json"; "index.json"])
  else if String.eqb path "/pkgs/locked" then Thrown (SystemError "EACCES")
  else Thrown (SystemError "ENOENT").

Definition disk : Fs.FileSystem :=
  {| Fs.resolve := store; Fs.resolve_empty_path := eq_refl |}.

(** [JSON.parse] on the texts that the store holds. *)
Definition parse (text : string) : Completion JValue :=
  if String.eqb text core_manifest_text then Normal core_manifest
  else if String.eqb text "null" then Normal JNull
  else if String.eqb text "{}" then Normal (JObject [])
  else Thrown SyntaxError.

Definition descriptor (url type kind : string) : Processor.Descriptor :=
  {| Processor.d_url := Some url; Processor.d_type := Some type;
     Processor.d_kind := Some kind; Processor.d_version := None |}.

Definition core_index : list Processor.Descriptor :=
  [descriptor "http://hl7.org/fhir/StructureDefinition/Patient"
     "StructureDefinition" "resource";
   descriptor "http://hl7.org/fhir/ValueSet/gender" "ValueSet" "resource"].

Definition examples_index : list Processor.Descriptor :=
  [descriptor "http://hl7.org/fhir/Patient/a" "Patient" "example";
   descriptor "http://hl7.org/fhir/Patient/b" "Patient" "example";
   descriptor "http://hl7.org/fhir/Patient/c" "Patient" "example"].

(** The descriptors of the index manifests that the store holds. *)
Definition read_index (directory : string) : option (list Processor.Descriptor) :=
  if String.eqb directory "/pkgs/core" then Some core_index
  else if String.eqb directory "/pkgs/core/examples" then Some examples_index
  else if String.eqb directory "/pkgs/null/examples" then Some examples_index
  else None.

Definition imports : Imports :=
  {| path_join := join;
     fs_readFile := Fs.readFile disk;
     JSON_parse := parse;
     fileExists := Fs.fileExists disk;
     processIndex := Processor.processIndex read_index |}.

(** The same store with an Index Processor that throws on every call. *)
Definition imports_failing_processor : Imports :=
  {| path_join := join;
     fs_readFile := Fs.readFile disk;
     JSON_parse := parse;
     fileExists := Fs.fileExists disk;
     processIndex := fun _ _ c => (c, Thrown OtherError) |}.

(** An earlier registration under the name of [/pkgs/core]. *)
Definition stale_info : PackageInfo :=
  {| pi_id := {| pid_name := Some (JString "hl7.fhir.r4.core");
                 pid_version := Some (JString "3.0.2") |};
     pi_path := "/old/core";
     pi_canonical := None;
     pi_fhirVersions := None |}.

Definition stale_cache : Cache :=
  set_package "hl7.fhir.r4.core" stale_info empty_cache.

(** The three entries of the search example of section 8. *)
Definition entry (url type kind : string) : IndexEntry :=
  {| e_url := Some url; e_type := Some type; e_kind := Some kind;
     e_version := None; e_package := None |}.

Definition entry1 : IndexEntry := entry "A" "X" "resource".
Definition entry2 : IndexEntry := entry "B" "Y" "resource".
Definition entry3 : IndexEntry := entry "A" "X" "logical".

Definition example_cache : Cache :=
  {| packages := ∅; entries := [entry1; entry2; entry3] |}.

(** An entry without a canonical URL, and a manager that knows the
    package of [/pkgs/core] and answers every search with the same
    three entries. *)
Definition entry_without_url : IndexEntry :=
  {| e_url := None; e_type := Some "StructureDefinition";
     e_kind := Some "resource"; e_version := None; e_package := None |}.

Definition patient_entry : IndexEntry :=
  entry "http://hl7.org/fhir/StructureDefinition/Patient"
    "StructureDefinition" "resource".

Definition manager : Tool.Manager :=
  {| Tool.init := Normal tt;
     Tool.m_packages := Normal [pi_id core_info];
     Tool.searchEntries := fun _ => Normal [patient_entry; entry_without_url; entry2];
     Tool.destroy := Normal tt |}.

(** [--type StructureDefinition --url PATIENT] *)
Definition options : Tool.SearchOptions :=
  {| Tool.o_url := Some "PATIENT";
     Tool.o_type := Some "StructureDefinition";
     Tool.o_kind := None;
     Tool.o_package := None;
     Tool.o_version := None;
     Tool.o_format := Tool.table;
     Tool.o_limit := None;
     Tool.o_help := false |}.

(** [--url] with an empty value *)
Definition options_empty_url : Tool.SearchOptions :=
  {| Tool.o_url := Some EmptyString;
     Tool.o_type := None;
     Tool.o_kind := None;
     Tool.o_package := None;
     Tool.o_version := None;
     Tool.o_format := Tool.table;
     Tool.o_limit := None;
     Tool.o_help := false |}.

Definition by_type (t : string) : Search.Criteria :=
  {| Search.c_type := Some t; Search.c_kind := None;
     Search.c_version := None; Search.c_package := None |}.

End Fixtures.

(** ** The command line of the search tool and its output *)

Module Cli.

(** What [parseArgs] comes to: the options, or the process exiting with
    a code after a message on the error stream. *)
Inductive Parse : Type :=
| Parsed (options : Tool.SearchOptions)
| Exited (code : Z) (message : string).

(** [{ format: 'table' }] *)
Definition initial_options : Tool.SearchOptions :=
  {| Tool.o_url := None; Tool.o_type := None; Tool.o_kind := None;
     Tool.o_package := None; Tool.o_version := None;
     Tool.o_format := Tool.table; Tool.o_limit := None; Tool.o_help := false |}.

Definition set_help (o : Tool.SearchOptions) : Tool.SearchOptions :=
  {| Tool.o_url := Tool.o_url o; Tool.o_type := Tool.o_type o;
     Tool.o_kind := Tool.o_kind o; Tool.o_package := Tool.o_package o;
     Tool.o_version := Tool.o_version o; Tool.o_format := Tool.o_format o;
     Tool.o_limit := Tool.o_limit o; Tool.o_help := true |}.

Definition set_url (v : option string) (o : Tool.SearchOptions) : Tool.SearchOptions :=
  {| Tool.o_url := v; Tool.o_type := Tool.o_type o;
     Tool.o_kind := Tool.o_kind o; Tool.o_package := Tool.o_package o;
     Tool.o_version := Tool.o_version o; Tool.o_format := Tool.o_format o;
     Tool.o_limit := Tool.o_limit o; Tool.o_help := Tool.o_help o |}.

Definition set_type (v : option string) (o : Tool.SearchOptions) : Tool.SearchOptions :=
  {| Tool.o_url := Tool.o_url o; Tool.o_type := v;
     Tool.o_kind := Tool.o_kind o; Tool.o_package := Tool.o_package o;
     Tool.o_version := Tool.o_version o; Tool.o_format := Tool.o_format o;
     Tool.o_limit := Tool.o_limit o; Tool.o_help := Tool.o_help o |}.

Definition set_kind (v : option string) (o : Tool.SearchOptions) : Tool.SearchOptions :=
  {| Tool.o_url := Tool.o_url o; Tool.o_type := Tool.o_type o;
     Tool.o_kind := v; Tool.o_package := Tool.o_package o;
     Tool.o_version := Tool.o_version o; Tool.o_format := Tool.o_format o;
     Tool.o_limit := Tool.o_limit o; Tool.o_help := Tool.o_help o |}.

Definition set_package_name (v : option string) (o : Tool.SearchOptions) : Tool.SearchOptions :=
  {| Tool.o_url := Tool.o_url o; Tool.o_type := Tool.o_type o;
     Tool.o_kind := Tool.o_kind o; Tool.o_package := v;
     Tool.o_version := Tool.o_version o; Tool.o_format := Tool.o_format o;
     Tool.o_limit := Tool.o_limit o; Tool.o_help := Tool.o_help o |}.

Definition set_version (v : option string) (o : Tool.SearchOptions) : Tool.SearchOptions :=
  {| Tool.o_url := Tool.o_url o; Tool.o_type := Tool.o_type o;
     Tool.o_kind := Tool.o_kind o; Tool.o_package := Tool.o_package o;
     Tool.o_version := v; Tool.o_format := Tool.o_format o;
     Tool.o_limit := Tool.o_limit o; Tool.o_help := Tool.o_help o |}.

Definition set_format (f : Tool.Format) (o : Tool.SearchOptions) : Tool.SearchOptions :=
  {| Tool.o_url := Tool.o_url o; Tool.o_type := Tool.o_type o;
     Tool.o_kind := Tool.o_kind o; Tool.o_package := Tool.o_package o;
     Tool.o_version := Tool.o_version o; Tool.o_format := f;
     Tool.o_limit := Tool.o_limit o; Tool.o_help := Tool.o_help o |}.

Definition set_limit (n : Z) (o : Tool.SearchOptions) : Tool.SearchOptions :=
  {| Tool.o_url := Tool.o_url o; Tool.o_type := Tool.o_type o;
     Tool.o_kind := Tool.o_kind o; Tool.o_package := Tool.o_package o;
     Tool.o_version := Tool.o_version o; Tool.o_format := Tool.o_format o;
     Tool.o_limit := Some n; Tool.o_help := Tool.o_help o |}.

(** The test of line 255. *)
Definition format_of (s : string) : option Tool.Format :=
  if String.eqb s "json" then Some Tool.json
  else if String.eqb s "table" then Some Tool.table
  else if String.eqb s "csv" then Some Tool.csv
  else None.

Section ParseArgs.
(** The platform's [parseInt(s, 10)]; [None] is [NaN].  The number is
    carried as an integer: the tool only compares it with zero and
    slices with it. *)
Context (parseInt : string -> option Z).

(** Lines 230-277: the loop over the arguments, from the argument at
    hand onwards.  [args[++i]] past the end is [undefined], and the loop
    then ends. *)
Fixpoint parseArgs_from (args : list string) (options : Tool.SearchOptions) : Parse :=
  match args with
  | [] => Parsed options
  | arg :: rest =>
      if String.eqb arg "--help" || String.eqb arg "-h" then
        parseArgs_from rest (set_help options)
      else if String.eqb arg "--url" then
        match rest with
        | value :: rest' => parseArgs_from rest' (set_url (Some value) options)
        | [] => Parsed (set_url None options)
        end
      else if String.eqb arg "--type" then
        match rest with
        | value :: rest' => parseArgs_from rest' (set_type (Some value) options)
        | [] => Parsed (set_type None options)
        end
      else if String.eqb arg "--kind" then
        match rest with
        | value :: rest' => parseArgs_from rest' (set_kind (Some value) options)
        | [] => Parsed (set_kind None options)
        end
      else if String.eqb arg "--package" then
        match rest with
        | value :: rest' => parseArgs_from rest' (set_package_name (Some value) options)
        | [] => Parsed (set_package_name None options)
        end
      else if String.eqb arg "--version" then
        match rest with
        | value :: rest' => parseArgs_from rest' (set_version (Some value) options)
        | [] => Parsed (set_version None options)
        end
      else if String.eqb arg "--format" then
        match rest with
        | value :: rest' =>
            match format_of value with
            | Some f => parseArgs_from rest' (set_format f options)
            | None =>
                Exited 1 ("Invalid format: " +:+ value
                          +:+ ". Must be json, table, or csv")
            end
        | [] => Exited 1 "Invalid format: undefined. Must be json, table, or csv"
        end
      else if String.eqb arg "--limit" then
        match rest with
        | value :: rest' =>
            match value with
            | EmptyString => parseArgs_from rest' options
            | _ =>
                match parseInt value with
                | Some n => parseArgs_from rest' (set_limit n options)
                | None => Exited 1 "Invalid limit: must be a number"
                end
            end
        | [] => Parsed options
        end
      else Exited 1 ("Unknown option: " +:+ arg)
  end.

(** [parseArgs()], on [process.argv.slice(2)]. *)
Definition parseArgs (args : list string) : Parse :=
  parseArgs_from args initial_options.

End ParseArgs.

(** The options that [parseArgs] knows. *)
Definition takes_value (arg : string) : bool :=
  String.eqb arg "--url" || String.eqb arg "--type" || String.eqb arg "--kind"
  || String.eqb arg "--package" || String.eqb arg "--version"
  || String.eqb arg "--format" || String.eqb arg "--limit".

Definition known (arg : string) : bool :=
  String.eqb arg "--help" || String.eqb arg "-h" || takes_value arg.

(** Arguments in which every option that takes a value is followed by
    one, so that the loop ends on an option boundary. *)
Fixpoint complete (args : list string) : bool :=
  match args with
  | [] => true
  | arg :: rest =>
      if takes_value arg then
        match rest with
        | _ :: rest' => complete rest'
        | [] => false
        end
      else complete rest
  end.

(** What the options [o'] reached from [o] owe to the arguments: every
    value that [o] did not have is one of them. *)
Definition from_arguments (parseInt : string -> option Z)
    (args : list string) (o o' : Tool.SearchOptions) : Prop :=
  (∀ v, Tool.o_url o' = Some v → Tool.o_url o = Some v ∨ v ∈ args)
  ∧ (∀ v, Tool.o_type o' = Some v → Tool.o_type o = Some v ∨ v ∈ args)
  ∧ (∀ v, Tool.o_kind o' = Some v → Tool.o_kind o = Some v ∨ v ∈ args)
  ∧ (∀ v, Tool.o_package o' = Some v → Tool.o_package o = Some v ∨ v ∈ args)
  ∧ (∀ v, Tool.o_version o' = Some v → Tool.o_version o = Some v ∨ v ∈ args)
  ∧ (∀ n, Tool.o_limit o' = Some n →
       Tool.o_limit o = Some n ∨ ∃ v, v ∈ args ∧ parseInt v = Some n)
  ∧ (Tool.o_format o' = Tool.o_format o
     ∨ ∃ v, v ∈ args ∧ format_of v = Some (Tool.o_format o'))
  ∧ (Tool.o_help o' = true →
       Tool.o_help o = true ∨ "--help" ∈ args ∨ "-h" ∈ args).

(** ** Output *)

Definition dquote : ascii := ascii_of_nat 34.

(** The [replace] of line 362: two quote characters for each one. *)
Fixpoint double_quotes (f : string) : string :=
  match f with
  | EmptyString => EmptyString
  | String c rest =>
      if Ascii.eqb c dquote then String dquote (String dquote (double_quotes rest))
      else String c (double_quotes rest)
  end.

(** The template of line 362: the field between quotes. *)
Definition csv_field (f : string) : string :=
  String dquote (double_quotes f +:+ String dquote EmptyString).

(** [fields.map(...).join(',')] *)
Definition csv_line (fields : list string) : string :=
  String.concat "," (map csv_field fields).

(** Reading a field back: after the opening quote, the characters up to
    the quote that closes the field, two quotes in a row standing for
    one, and what is left of the line after it. *)
Fixpoint read_field (s : string) : option (string * string) :=
  match s with
  | EmptyString => None
  | String c rest =>
      if Ascii.eqb c dquote then
        match rest with
        | String c' rest' =>
            if Ascii.eqb c' dquote then
              match read_field rest' with
              | Some (f, after) => Some (String dquote f, after)
              | None => None
              end
            else Some (EmptyString, rest)
        | EmptyString => Some (EmptyString, EmptyString)
        end
      else
        match read_field rest with
        | Some (f, after) => Some (String c f, after)
        | None => None
        end
  end.

(** What follows the first field of a line. *)
Definition line_tail (fields : list string) : string :=
  match fields with
  | [] => EmptyString
  | _ :: _ => "," +:+ csv_line fields
  end.

(** [x || ''] on an optional string. *)
Definition or_empty (o : option string) : string :=
  match o with
  | Some s => s
  | None => EmptyString
  end.

(** [x?.length || 0] *)
Definition length_or_0 (o : option string) : nat :=
  match o with
  | Some s => String.length s
  | None => 0
  end.

(** [Math.max(least, ...lengths)] *)
Definition max_of (least : nat) (lengths : list nat) : nat :=
  foldr Nat.max least lengths.

Fixpoint repeat_char (c : ascii) (n : nat) : string :=
  match n with
  | O => EmptyString
  | S n' => String c (repeat_char c n')
  end.

(** [s.padEnd(n)] *)
Definition padEnd (s : string) (n : nat) : string :=
  s +:+ repeat_char " " (n - String.length s).

Section Formats.
(** [entry.package?.name]: the name of the package of the entry, a
    string, and [undefined] for an entry without a package; the tool
    reads the name off the back-reference itself.  Lengths are counted
    in characters of the ASCII range. *)
Context (package_name : IndexEntry -> option string).

(** Lines 355-361. *)
Definition csv_fields (entry : IndexEntry) : list string :=
  [or_empty (e_url entry); or_empty (e_type entry); or_empty (e_kind entry);
   or_empty (package_name entry); or_empty (e_version entry)].

(** [formatCSV]: the lines it prints, one for each [console.log]. *)
Definition formatCSV (entries : list IndexEntry) : list string :=
  "URL,Type,Kind,Package,Version"
  :: map (fun entry => csv_line (csv_fields entry)) entries.

(** The column widths of lines 323-328. *)
Record Widths : Type := {
  w_url : nat;
  w_type : nat;
  w_kind : nat;
  w_package : nat;
}.

Definition cols (entries : list IndexEntry) : Widths :=
  {| w_url := max_of 30 (map (fun e => length_or_0 (e_url e)) entries);
     w_type := max_of 15 (map (fun e => length_or_0 (e_type e)) entries);
     w_kind := max_of 10 (map (fun e => length_or_0 (e_kind e)) entries);
     w_package := max_of 20 (map (fun e => length_or_0 (package_name e)) entries) |}.

Definition table_header (w : Widths) : string :=
  padEnd "URL" (w_url w) +:+ " | " +:+ padEnd "Type" (w_type w) +:+ " | "
  +:+ padEnd "Kind" (w_kind w) +:+ " | " +:+ padEnd "Package" (w_package w).

Definition table_rule (w : Widths) : string :=
  repeat_char "-" (w_url w + w_type w + w_kind w + w_package w + 9).

Definition table_row (w : Widths) (entry : IndexEntry) : string :=
  padEnd (or_empty (e_url entry)) (w_url w) +:+ " | "
  +:+ padEnd (or_empty (e_type entry)) (w_type w) +:+ " | "
  +:+ padEnd (or_empty (e_kind entry)) (w_kind w) +:+ " | "
  +:+ padEnd (or_empty (package_name entry)) (w_package w).

Definition table_total (entries : list IndexEntry) : string :=
  String (ascii_of_nat 10) ("Total: " +:+ pretty (length entries) +:+ " results").

(** [formatTable]: the lines it prints, one for each [console.log]. *)
Definition formatTable (entries : list IndexEntry) : list string :=
  match entries with
  | [] => ["No results found"]
  | _ :: _ =>
      let w := cols entries in
      table_header w :: table_rule w
      :: map (table_row w) entries ++ [table_total entries]
  end.

End Formats.

End Cli.

(** ** More data to run the definitions on *)

Module Samples.

(** [parseInt(s, 10)] on the numerals used below. *)
Definition parseInt (s : string) : option Z :=
  if String.eqb s "5" then Some 5%Z
  else if String.eqb s "0" then Some 0%Z
  else if String.eqb s "-3" then Some (-3)%Z
  else if String.eqb s "2" then Some 2%Z
  else None.

(** A cache in which another package is registered already. *)
Definition other_info : PackageInfo :=
  {| pi_id := {| pid_name := Some (JString "hl7.terminology");
                 pid_version := Some (JString "5.0.0") |};
     pi_path := "/pkgs/terminology";
     pi_canonical := None;
     pi_fhirVersions := None |}.

Definition other_cache : Cache :=
  set_package "hl7.terminology" other_info empty_cache.

(** A manifest whose name is an object with a member [toString]: it
    converts to no property key. *)
Definition odd_manifest : JValue :=
  JObject [("name", JObject [("toString", JNumber "1")]);
           ("version", JString "1.0.0")].

(** The store of the fixtures, seen through a [JSON.parse] that gives
    [odd_manifest] for every text. *)
Definition imports_odd_name : Imports :=
  {| path_join := Fixtures.join;
     fs_readFile := fun _ => Normal "odd";
     JSON_parse := fun _ => Normal odd_manifest;
     fileExists := Fs.fileExists Fixtures.disk;
     processIndex := Processor.processIndex Fixtures.read_index |}.

(** A manager that knows two packages and answers every search with the
    same three entries. *)
Definition manager : Tool.Manager :=
  {| Tool.init := Normal tt;
     Tool.m_packages := Normal [pi_id other_info; pi_id Fixtures.core_info];
     Tool.searchEntries := fun _ =>
       Normal [Fixtures.patient_entry; Fixtures.entry_without_url; Fixtures.entry2];
     Tool.destroy := Normal tt |}.

(** [--type ValueSet --package hl7.fhir.r4.core] *)
Definition options_by_package : Tool.SearchOptions :=
  Cli.set_package_name (Some "hl7.fhir.r4.core")
    (Cli.set_type (Some "ValueSet") Cli.initial_options).

(** [--package hl7.fhir.us.core] *)
Definition options_unknown_package : Tool.SearchOptions :=
  Cli.set_package_name (Some "hl7.fhir.us.core") Cli.initial_options.

(** [--format json --limit 2] *)
Definition options_limit_2 : Tool.SearchOptions :=
  Cli.set_limit 2 (Cli.set_format Tool.json Cli.initial_options).

(** The name of the package of an entry, for entries whose
    back-reference carries a name that is a string. *)
Definition package_name (e : IndexEntry) : option string :=
  match e_package e with
  | Some p =>
      match pid_name (pi_id p) with
      | Some (JString s) => Some s
      | _ => None
      end
  | None => None
  end.

End Samples.

(** * Properties of the scanner *)

Import Fixtures.

Section ScannerFacts.
Context (I : Imports).

Ltac scan_unfold :=
  unfold scan, scan_calls, scanPackage, try_catch_ignore, scanPackage_body,
    read_manifest, registration, examples_index_exists, examplesPath,
    call_processIndex, assign_package, eval,
    mbind, mret, Scan_bind, Scan_ret, Completion_bind, Completion_ret in *.

(** What a scan does, by cases on the steps of the body. *)
Lemma scanPackage_run (P : string) (w : World) :
  scanPackage I P w =
    match read_manifest I P with
    | Thrown _ => (w, Normal tt)
    | Normal m =>
        match registration P m with
        | Thrown _ => (w, Normal tt)
        | Normal (k, info) =>
            let c1 := set_package k info (w_cache w) in
            let calls1 := w_calls w ++ [ProcessIndex P m] in
            match processIndex I P m c1 with
            | (c2, Thrown _) => ({| w_cache := c2; w_calls := calls1 |}, Normal tt)
            | (c2, Normal _) =>
                match examples_index_exists I P with
                | Normal true =>
                    ({| w_cache := (processIndex I (examplesPath I P) m c2).1;
                        w_calls := calls1 ++ [ProcessIndex (examplesPath I P) m] |},
                     Normal tt)
                | _ => ({| w_cache := c2; w_calls := calls1 |}, Normal tt)
                end
            end
        end
    end.
Proof.
  scan_unfold.
  destruct (fs_readFile I _) as [txt|]; [|done].
  destruct (JSON_parse I txt) as [m|]; [|done].
  unfold make_packageInfo, mbind, mret, Completion_bind, Completion_ret.
  destruct (get_member m "name") as [name|]; [|done].
  destruct (get_member m "version") as [version|]; [|done].
  destruct (get_member m "canonical") as [canonical|]; [|done].
  destruct (get_member m "fhirVersions") as [fv|]; [|done].
  destruct (ToPropertyKey name) as [k|]; [|done].
  cbn.
  destruct (processIndex I P m _) as [c2 [[]|]]; [|done].
  destruct (fileExists I _) as [[|]|]; [|done|done].
  cbn. by destruct (processIndex I _ m c2) as [c3 [[]|]].
Qed.

Lemma scan_run (P : string) (c : Cache) :
  scan I P c =
    (w_cache (scanPackage I P {| w_cache := c; w_calls := [] |}).1, Normal tt).
Proof.
  unfold scan. rewrite scanPackage_run.
  destruct (read_manifest I P) as [m|]; [|done].
  destruct (registration P m) as [[k info]|]; [|done]. cbn.
  destruct (processIndex I P m _) as [c2 [[]|]]; [|done].
  by destruct (examples_index_exists I P) as [[|]|].
Qed.

Lemma scan_abandoned (P : string) (c : Cache) :
  is_normal (read_manifest I P) = false →
  scan I P c = (c, Normal tt) ∧ scan_calls I P c = [].
Proof.
  intros H. unfold scan_calls. rewrite scan_run, scanPackage_run.
  by destruct (read_manifest I P).
Qed.

Lemma scan_unregistered (P : string) (c : Cache) (m : JValue) :
  read_manifest I P = Normal m →
  is_normal (registration P m) = false →
  scan I P c = (c, Normal tt) ∧ scan_calls I P c = [].
Proof.
  intros Hm H. unfold scan_calls. rewrite scan_run, scanPackage_run, Hm.
  by destruct (registration P m).
Qed.

Lemma missing_or_unparsable_throws (P : string) :
  manifest_missing_or_unparsable I P → is_normal (read_manifest I P) = false.
Proof.
  unfold read_manifest, mbind, Completion_bind.
  intros [[e ->]|(text & e & -> & ->)]; done.
Qed.

Lemma scan_packages (P : string) (c : Cache) (m : JValue) k info :
  keeps_packages I →
  read_manifest I P = Normal m →
  registration P m = Normal (k, info) →
  packages (scan I P c).1 = <[k := info]> (packages c).
Proof.
  intros Hkeep Hm Hreg. rewrite scan_run, scanPackage_run, Hm, Hreg. cbn.
  pose proof (Hkeep P m (set_package k info c)) as H1.
  destruct (processIndex I P m _) as [c2 [[]|]]; cbn in *; [|done].
  destruct (examples_index_exists I P) as [[|]|]; cbn; [|done..].
  by rewrite Hkeep.
Qed.

Lemma registration_not_null (P : string) (m : JValue) :
  m ≠ JNull →
  registration P m = (k ← ToPropertyKey (member m "name"); mret (k, info_of P m)).
Proof. by destruct m. Qed.

End ScannerFacts.

Lemma spec_processor_keeps_packages read_index dir manifest c :
  packages (Processor.processIndex read_index dir manifest c).1 = packages c.
Proof. unfold Processor.processIndex. by destruct (read_index dir). Qed.

(** C2. [scanPackage] never throws, whatever the path, the cache and the
    behaviour of what it calls: reading or parsing the manifest, index
    processing of the root, the probe of the examples index and index
    processing of the examples may each throw, and the call still
    completes normally; what it changes is the cache it was given. *)
Theorem scanPackage_never_throws (I : Imports) (packagePath : string) (w : World) :
  (scanPackage I packagePath w).2 = Normal tt
  ∧ (scan I packagePath (w_cache w)).2 = Normal tt.
Proof.
  split; [|by rewrite scan_run].
  unfold scanPackage, try_catch_ignore. by destruct (scanPackage_body _ _ _).
Qed.

(** C1. A package whose [package.json] is missing or is not JSON leaves
    the cache exactly as it was and the scan completes normally; so
    scanning a package P1 and such a package P2, in either order, gives
    the cache that scanning P1 alone gives, and from the empty cache,
    when P1 has a manifest that registers, the packages map holds P1's
    PackageInfo and nothing else. *)
Theorem scanPackage_corrupt_manifest_isolated
    (I : Imports) (P1 P2 : string) (c : Cache) :
  manifest_missing_or_unparsable I P2 →
  scan I P2 c = (c, Normal tt)
  ∧ scan I P2 (scan I P1 c).1 = scan I P1 c
  ∧ scan I P1 (scan I P2 c).1 = scan I P1 c
  ∧ (∀ m k info,
       keeps_packages I →
       read_manifest I P1 = Normal m →
       registration P1 m = Normal (k, info) →
       packages (scan I P2 (scan I P1 empty_cache).1).1 = {[ k := info ]}
       ∧ packages (scan I P1 (scan I P2 empty_cache).1).1 = {[ k := info ]}).
Proof.
  intros Hbad%missing_or_unparsable_throws.
  assert (Hsame : ∀ c', scan I P2 c' = (c', Normal tt))
    by (intros c'; by apply scan_abandoned).
  split; [apply Hsame|].
  split; [rewrite Hsame; by rewrite (scan_run I P1 c)|].
  split; [by rewrite Hsame|].
  intros m k info Hkeep Hm Hreg.
  rewrite !Hsame. cbn.
  by rewrite (scan_packages I P1 empty_cache m k info).
Qed.

Lemma scanPackage_corrupt_manifest_isolated_witness :
  manifest_missing_or_unparsable imports "/pkgs/broken"
  ∧ scan imports "/pkgs/broken" (scan imports "/pkgs/core" empty_cache).1
    = scan imports "/pkgs/core" empty_cache
  ∧ scan imports "/pkgs/core" (scan imports "/pkgs/broken" empty_cache).1
    = scan imports "/pkgs/core" empty_cache
  ∧ packages (scan imports "/pkgs/core" (scan imports "/pkgs/broken" empty_cache).1).1
    = {[ "hl7.fhir.r4.core" := core_info ]}.
Proof.
  assert (Hbad : manifest_missing_or_unparsable imports "/pkgs/broken").
  { right. exists "{ not json", SyntaxError. split; reflexivity. }
  destruct (scanPackage_corrupt_manifest_isolated
              imports "/pkgs/core" "/pkgs/broken" empty_cache Hbad)
    as (_ & H12 & H21 & Hpk).
  destruct (Hpk core_manifest "hl7.fhir.r4.core" core_info) as [_ H];
    [intros d m c; apply spec_processor_keeps_packages
    |reflexivity|reflexivity|].
  exact (conj Hbad (conj H12 (conj H21 H))).
Defined.

(** C3. When [package.json] parses to a manifest that declares the name
    [n] and the version [v], then after the scan [cache.packages] holds
    under [n] the PackageInfo made of that identity, the scanned path
    and the manifest's [canonical] and [fhirVersions] members, whatever
    was stored under [n] before. *)
Theorem scanPackage_registers_package
    (I : Imports) (P : string) (c : Cache)
    (text : string) (ms : list (string * JValue)) (n : string) (v : JValue) :
  keeps_packages I →
  fs_readFile I (path_join I P "package.json") = Normal text →
  JSON_parse I text = Normal (JObject ms) →
  assoc "name" ms = Some (JString n) →
  assoc "version" ms = Some v →
  packages (scan I P c).1 !! n =
    Some {| pi_id := {| pid_name := Some (JString n); pid_version := Some v |};
            pi_path := P;
            pi_canonical := assoc "canonical" ms;
            pi_fhirVersions := assoc "fhirVersions" ms |}.
Proof.
  intros Hkeep Hread Hparse Hn Hv.
  erewrite scan_packages; [apply lookup_insert_eq|done| |].
  - unfold read_manifest, mbind, Completion_bind. by rewrite Hread.
  - rewrite registration_not_null by done. cbn. rewrite Hn. cbn.
    unfold info_of. cbn. by rewrite Hn, Hv.
Qed.

Lemma scanPackage_registers_package_witness :
  packages (scan imports "/pkgs/core" stale_cache).1 !! "hl7.fhir.r4.core"
  = Some core_info.
Proof.
  apply (scanPackage_registers_package imports "/pkgs/core" stale_cache
           core_manifest_text
           [("name", JString "hl7.fhir.r4.core"); ("version", JString "4.0.1");
            ("canonical", JString "http://hl7.org/fhir")]
           "hl7.fhir.r4.core" (JString "4.0.1")).
  - intros d m c. apply spec_processor_keeps_packages.
  - reflexivity.
  - reflexivity.
  - reflexivity.
  - reflexivity.
Defined.

(** C8. When the manifest is read, parsed and registered and a later
    step throws (index processing of the package root, the probe of the
    examples index, or index processing of the examples), the scan still
    completes normally, the cache is left as it was when the step threw,
    and the PackageInfo inserted under the manifest's name is still
    there: the handler rolls nothing back. *)
Theorem registration_survives_later_throw
    (I : Imports) (P : string) (c c' : Cache) (m : JValue)
    (k : string) (info : PackageInfo) :
  keeps_packages I →
  read_manifest I P = Normal m →
  registration P m = Normal (k, info) →
  later_throw I P m (set_package k info c) c' →
  scan I P c = (c', Normal tt) ∧ packages c' !! k = Some info.
Proof.
  intros Hkeep Hm Hreg Hthrow.
  assert (Hscan : scan I P c = (c', Normal tt)).
  { rewrite scan_run, scanPackage_run, Hm, Hreg. cbn.
    destruct Hthrow as [c2 e H1|c2 e H1 H2|c2 c3 e H1 H2 H3];
      rewrite H1; [done|by rewrite H2|rewrite H2, H3; done]. }
  split; [done|].
  replace c' with (scan I P c).1 by (by rewrite Hscan).
  rewrite (scan_packages I P c m k info) by done.
  apply lookup_insert_eq.
Qed.

Lemma registration_survives_later_throw_witness :
  later_throw imports_failing_processor "/pkgs/core" core_manifest
    (set_package "hl7.fhir.r4.core" core_info empty_cache)
    (set_package "hl7.fhir.r4.core" core_info empty_cache)
  ∧ scan imports_failing_processor "/pkgs/core" empty_cache
    = (set_package "hl7.fhir.r4.core" core_info empty_cache, Normal tt)
  ∧ packages (set_package "hl7.fhir.r4.core" core_info empty_cache)
      !! "hl7.fhir.r4.core" = Some core_info.
Proof.
  assert (Hthrow : later_throw imports_failing_processor "/pkgs/core" core_manifest
            (set_package "hl7.fhir.r4.core" core_info empty_cache)
            (set_package "hl7.fhir.r4.core" core_info empty_cache)).
  { apply (throw_in_root_index _ _ _ _ _ OtherError). reflexivity. }
  split; [exact Hthrow|].
  apply (registration_survives_later_throw imports_failing_processor
           "/pkgs/core" empty_cache _ core_manifest "hl7.fhir.r4.core" core_info).
  - intros d m c. reflexivity.
  - reflexivity.
  - reflexivity.
  - exact Hthrow.
Defined.

(** C9, as the claim states it, fails for a manifest that is the JSON
    text [null]: it parses, it has no name and no version, and the scan
    registers nothing, because reading [packageJson.name] throws. *)
Lemma null_manifest_registers_nothing :
  read_manifest imports "/pkgs/null" = Normal JNull
  ∧ member JNull "name" = None
  ∧ member JNull "version" = None
  ∧ scan imports "/pkgs/null" empty_cache = (empty_cache, Normal tt)
  ∧ packages (scan imports "/pkgs/null" empty_cache).1 !! "undefined" = None.
Proof. repeat split; reflexivity. Qed.

(** C9, amended.  The manifest is not validated: for every
    [package.json] that parses to a value other than [null], be it an
    object without a name or a version, an array, a string, a number or
    a boolean, the PackageInfo is built from the members that are there,
    the others being [undefined], and is inserted under the key that the
    name converts to, which is [undefined] for an absent name; the scan
    completes normally. *)
Theorem unvalidated_manifest_is_registered
    (I : Imports) (P : string) (c : Cache) (m : JValue) (k : string) :
  keeps_packages I →
  read_manifest I P = Normal m →
  m ≠ JNull →
  ToPropertyKey (member m "name") = Normal k →
  (scan I P c).2 = Normal tt
  ∧ packages (scan I P c).1 !! k = Some (info_of P m)
  ∧ (member m "name" = None → k = "undefined").
Proof.
  intros Hkeep Hm Hnull Hk.
  split; [by rewrite scan_run|].
  split.
  - rewrite (scan_packages I P c m k (info_of P m)); [apply lookup_insert_eq|done..|].
    rewrite registration_not_null by done. by rewrite Hk.
  - intros Hnone. rewrite Hnone in Hk. cbn in Hk. congruence.
Qed.

Lemma unvalidated_manifest_is_registered_witness :
  read_manifest imports "/pkgs/bare" = Normal (JObject [])
  ∧ packages (scan imports "/pkgs/bare" empty_cache).1 !! "undefined"
    = Some {| pi_id := {| pid_name := None; pid_version := None |};
              pi_path := "/pkgs/bare";
              pi_canonical := None;
              pi_fhirVersions := None |}.
Proof.
  split; [reflexivity|].
  apply (unvalidated_manifest_is_registered imports "/pkgs/bare" empty_cache
           (JObject []) "undefined").
  - intros d m c. apply spec_processor_keeps_packages.
  - reflexivity.
  - discriminate.
  - reflexivity.
Defined.

(** C5, as the claim states it, fails for a manifest that parses to
    [null]: the examples index is there, and the Index Processor is
    called on no directory at all. *)
Lemma null_manifest_examples_not_processed :
  read_manifest imports "/pkgs/null" = Normal JNull
  ∧ examples_index_exists imports "/pkgs/null" = Normal true
  ∧ scan_calls imports "/pkgs/null" empty_cache = []
  ∧ entries (scan imports "/pkgs/null" empty_cache).1 = [].
Proof. repeat split; reflexivity. Qed.

(** C5, amended.  When the manifest parses and is registered and index
    processing of the package root returns, the Index Processor is
    called on the examples sub-directory exactly when the probe finds
    [examples/.index.json], after the call on the root and with the same
    manifest.  With the Index Processor of section 4.3, the entries of
    the root index and then those of the examples index are appended,
    all attributed to the package just registered: two and three make
    five. *)
Theorem examples_index_processed_when_present
    (I : Imports) (P : string) (c : Cache) (m : JValue)
    (k : string) (info : PackageInfo) :
  read_manifest I P = Normal m →
  registration P m = Normal (k, info) →
  (processIndex I P m (set_package k info c)).2 = Normal tt →
  scan_calls I P c =
    ProcessIndex P m ::
      (if probe_found (examples_index_exists I P)
       then [ProcessIndex (examplesPath I P) m] else [])
  ∧ (∀ read_index ds1 ds2,
       processIndex I = Processor.processIndex read_index →
       read_index P = Some ds1 →
       read_index (examplesPath I P) = Some ds2 →
       examples_index_exists I P = Normal true →
       entries (scan I P c).1 =
         entries c ++ map (Processor.entry_of (Some info)) (ds1 ++ ds2)
       ∧ (length ds1 = 2 → length ds2 = 3 →
          length (entries (scan I P c).1) = length (entries c) + 5)).
Proof.
  intros Hm Hreg Hroot.
  split.
  - unfold scan_calls. rewrite scanPackage_run, Hm, Hreg. cbn.
    destruct (processIndex I P m _) as [c2 [[]|]]; [|done].
    by destruct (examples_index_exists I P) as [[|]|].
  - intros read_index ds1 ds2 Hproc H1 H2 Hex.
    assert (Hpkg : ∀ c0, packages c0 !! k = Some info →
              Processor.registered_package m c0 = Some info).
    { intros c0 Hc0. unfold Processor.registered_package.
      unfold registration, make_packageInfo, mbind, mret,
        Completion_bind, Completion_ret in *.
      destruct (get_member m "name") as [name|]; [|done].
      destruct (get_member m "version"); [|done].
      destruct (get_member m "canonical"); [|done].
      destruct (get_member m "fhirVersions"); [|done].
      destruct (ToPropertyKey name); [|done].
      by simplify_eq. }
    assert (Hentries : entries (scan I P c).1 =
              entries c ++ map (Processor.entry_of (Some info)) (ds1 ++ ds2)).
    { rewrite scan_run, scanPackage_run, Hm, Hreg, Hex, Hproc. cbn.
      unfold Processor.processIndex. rewrite H1. cbn. rewrite H2. cbn.
      rewrite !Hpkg by (cbn; apply lookup_insert_eq).
      by rewrite map_app, app_assoc. }
    split; [done|].
    intros Hl1 Hl2.
    rewrite Hentries, !length_app, length_map, length_app. lia.
Qed.

Lemma examples_index_processed_when_present_witness :
  scan_calls imports "/pkgs/core" empty_cache
  = [ProcessIndex "/pkgs/core" core_manifest;
     ProcessIndex "/pkgs/core/examples" core_manifest]
  ∧ entries (scan imports "/pkgs/core" empty_cache).1
    = map (Processor.entry_of (Some core_info)) (core_index ++ examples_index)
  ∧ length (entries (scan imports "/pkgs/core" empty_cache).1) = 5.
Proof.
  destruct (examples_index_processed_when_present imports "/pkgs/core"
              empty_cache core_manifest "hl7.fhir.r4.core" core_info)
    as [Hcalls Hentries]; [reflexivity..|].
  destruct (Hentries read_index core_index examples_index) as [He Hlen];
    [reflexivity..|].
  split; [exact Hcalls|].
  split; [exact He|].
  exact (Hlen eq_refl eq_refl).
Defined.

(** * Properties of the cache search *)

Section SearchFacts.
Import Search.
Context (same_package : PackageInfo -> PackageInfo -> bool).

Lemma field_is_true (field : option string) (wanted : string) :
  field_is field wanted = true ↔ field = Some wanted.
Proof.
  destruct field as [s|]; cbn; [|done].
  rewrite String.eqb_eq. split; congruence.
Qed.

Lemma holds_true {A} (criterion : option A) (test : A -> bool) :
  holds criterion test = true ↔ ∀ a, criterion = Some a → test a = true.
Proof.
  destruct criterion as [a|]; cbn; [|done].
  split; [by intros H ? [= <-]|auto].
Qed.

Lemma matches_true (criteria : Criteria) (e : IndexEntry) :
  matches same_package criteria e = true ↔
    (∀ t, c_type criteria = Some t → e_type e = Some t)
    ∧ (∀ k, c_kind criteria = Some k → e_kind e = Some k)
    ∧ (∀ v, c_version criteria = Some v → e_version e = Some v)
    ∧ (∀ p, c_package criteria = Some p →
         ∃ q, e_package e = Some q ∧ same_package p q = true).
Proof.
  unfold matches. rewrite !andb_true_iff, !holds_true.
  setoid_rewrite field_is_true.
  assert (Hpkg : ∀ p, package_is same_package (e_package e) p = true ↔
            ∃ q, e_package e = Some q ∧ same_package p q = true).
  { intros p. unfold package_is. destruct (e_package e) as [q|].
    - split; [eauto|by intros (? & [= <-] & ?)].
    - split; [done|by intros (? & ? & ?)]. }
  setoid_rewrite Hpkg. tauto.
Qed.

Lemma search_entries_elem (criteria : Criteria) (es : list IndexEntry) e :
  e ∈ search_entries same_package criteria es ↔
    e ∈ es ∧ matches same_package criteria e = true.
Proof.
  induction es as [|x es IH]; cbn.
  - split; [by intros ?%elem_of_nil|by intros [?%elem_of_nil _]].
  - destruct (matches same_package criteria x) eqn:Hx;
      rewrite ?elem_of_cons, IH.
    + split; [intros [->|[? ?]]; auto|intros [[->|?] ?]; auto].
    + split; [intros [? ?]; auto|intros [[->|?] ?]; [congruence|auto]].
Qed.

Lemma search_entries_sublist (criteria : Criteria) (es : list IndexEntry) :
  sublist (search_entries same_package criteria es) es.
Proof.
  induction es as [|x es IH]; cbn; [constructor|].
  destruct (matches same_package criteria x); by constructor.
Qed.

Lemma search_entries_app (criteria : Criteria) (es1 es2 : list IndexEntry) :
  search_entries same_package criteria (es1 ++ es2) =
    search_entries same_package criteria es1
    ++ search_entries same_package criteria es2.
Proof.
  induction es1 as [|x es1 IH]; cbn; [done|].
  destruct (matches same_package criteria x); cbn; by rewrite IH.
Qed.

End SearchFacts.

(** C4. [search] returns exactly the entries that meet every criterion
    that was supplied: type, kind and version by equality of the string
    with the entry's own field, package by the comparison in use with
    the entry's back-reference, a criterion left out constraining
    nothing.  The result keeps the order of ingestion: it is a
    subsequence of [cache.entries], and entries ingested later only add
    to its end.  On the three entries of the example, [{type: X}] gives
    the first and the third, [{kind: resource}] the first and the
    second, [{type: X, kind: logical}] the third. *)
Theorem search_returns_matching_entries_in_order
    (same_package : PackageInfo -> PackageInfo -> bool)
    (criteria : Search.Criteria) (cache : Cache) :
  (∀ e, e ∈ Search.search same_package criteria cache ↔
     e ∈ entries cache
     ∧ (∀ t, Search.c_type criteria = Some t → e_type e = Some t)
     ∧ (∀ k, Search.c_kind criteria = Some k → e_kind e = Some k)
     ∧ (∀ v, Search.c_version criteria = Some v → e_version e = Some v)
     ∧ (∀ p, Search.c_package criteria = Some p →
          ∃ q, e_package e = Some q ∧ same_package p q = true))
  ∧ sublist (Search.search same_package criteria cache) (entries cache)
  ∧ (∀ later,
       Search.search same_package criteria (append_entries later cache) =
         Search.search same_package criteria cache
         ++ Search.search_entries same_package criteria later)
  ∧ Search.search same_package (by_type "X") example_cache = [entry1; entry3]
  ∧ Search.search same_package
      {| Search.c_type := None; Search.c_kind := Some "resource";
         Search.c_version := None; Search.c_package := None |} example_cache
    = [entry1; entry2]
  ∧ Search.search same_package
      {| Search.c_type := Some "X"; Search.c_kind := Some "logical";
         Search.c_version := None; Search.c_package := None |} example_cache
    = [entry3].
Proof.
  unfold Search.search.
  split; [|split; [|split; [|by repeat split]]].
  - intros e. rewrite search_entries_elem, matches_true. tauto.
  - apply search_entries_sublist.
  - intros later. cbn. apply search_entries_app.
Qed.

(** Scanning the well-formed package of the store and searching by
    its package gives the two entries of its index, then the three of
    its examples. *)
Example search_by_package_after_scan :
  Search.search Search.same_name
    {| Search.c_type := None; Search.c_kind := None;
       Search.c_version := None; Search.c_package := Some core_info |}
    (scan imports "/pkgs/core" empty_cache).1
  = map (Processor.entry_of (Some core_info)) (core_index ++ examples_index).
Proof. reflexivity. Qed.

(** * Properties of the filesystem probes *)

Lemma has_name_true (n : string) (names : list string) :
  Fs.has_name n names = true ↔ n ∈ names.
Proof.
  unfold Fs.has_name. rewrite existsb_exists. split.
  - intros (x & Hx & ->%String.eqb_eq). by apply list_elem_of_In.
  - intros Hn. exists n. split; [by apply list_elem_of_In|apply String.eqb_refl].
Qed.

(** C7. [fileExists] never throws: it returns [true] when the path can
    be reached, be it a file or a directory, and [false] for every error
    of the access, permission denial among them. *)
Theorem fileExists_never_throws (fs : Fs.FileSystem) (path : string) :
  (∃ b, Fs.fileExists fs path = Normal b)
  ∧ (Fs.fileExists fs path = Normal true ↔ Fs.access fs path = Normal tt)
  ∧ (∀ content, Fs.resolve fs path = Normal (Fs.File content) →
       Fs.fileExists fs path = Normal true)
  ∧ (∀ names, Fs.resolve fs path = Normal (Fs.Directory names) →
       Fs.fileExists fs path = Normal true)
  ∧ (∀ e, Fs.access fs path = Thrown e → Fs.fileExists fs path = Normal false)
  ∧ (Fs.access fs path = Thrown (SystemError "EACCES") →
       Fs.fileExists fs path = Normal false).
Proof.
  unfold Fs.fileExists, Fs.access, mbind, mret, Completion_bind, Completion_ret.
  destruct (Fs.resolve fs path) as [node|e]; repeat split; eauto; done.
Qed.

(** The four cases of the test suite of [fileExists], on the store. *)
Example fileExists_on_store :
  Fs.fileExists disk "/pkgs/core/package.json" = Normal true
  ∧ Fs.fileExists disk "/pkgs/core/missing.txt" = Normal false
  ∧ Fs.fileExists disk "/pkgs/core" = Normal true
  ∧ Fs.fileExists disk "/pkgs/locked" = Normal false.
Proof. repeat split. Qed.

(** C6. [isFhirPackage] never throws, and returns [true] exactly when
    the path names a directory with [.index.json] directly under it; it
    returns [false] for a path that names no directory (one that does
    not exist, one that is not valid), for a directory that holds an
    [index.json] without the dot and no [.index.json], and for the empty
    string. *)
Theorem isFhirPackage_iff_index_present (fs : Fs.FileSystem) (dirPath : string) :
  (∃ b, Fs.isFhirPackage fs dirPath = Normal b)
  ∧ (Fs.isFhirPackage fs dirPath = Normal true ↔
       ∃ names, Fs.resolve fs dirPath = Normal (Fs.Directory names)
                ∧ ".index.json" ∈ names)
  ∧ (∀ e, Fs.resolve fs dirPath = Thrown e →
       Fs.isFhirPackage fs dirPath = Normal false)
  ∧ (∀ names, Fs.resolve fs dirPath = Normal (Fs.Directory names) →
       ".index.json" ∉ names →
       Fs.isFhirPackage fs dirPath = Normal false)
  ∧ (Fs.resolve fs dirPath = Normal (Fs.Directory ["package.json"; "index.json"]) →
       Fs.isFhirPackage fs dirPath = Normal false)
  ∧ Fs.isFhirPackage fs EmptyString = Normal false.
Proof.
  unfold Fs.isFhirPackage.
  split; [destruct (Fs.resolve fs dirPath) as [[|]|]; eauto|].
  split.
  { destruct (Fs.resolve fs dirPath) as [[content|names]|e].
    - split; [done|by intros (? & ? & ?)].
    - split.
      + intros [= H%has_name_true]. eauto.
      + intros (? & [= <-] & H%has_name_true). by rewrite H.
    - split; [done|by intros (? & ? & ?)]. }
  split; [by intros e ->|].
  split.
  { intros names -> Hno. destruct (Fs.has_name _ names) eqn:H; [|done].
    by apply has_name_true in H. }
  split; [by intros ->|].
  pose proof (Fs.resolve_empty_path fs) as H.
  by destruct (Fs.resolve fs EmptyString).
Qed.

(** The five cases of the test suite of [isFhirPackage], on the store. *)
Example isFhirPackage_on_store :
  Fs.isFhirPackage disk "/pkgs/core" = Normal true
  ∧ Fs.isFhirPackage disk "/pkgs/broken" = Normal false
  ∧ Fs.isFhirPackage disk "/pkgs/plain" = Normal false
  ∧ Fs.isFhirPackage disk "/pkgs/does-not-exist" = Normal false
  ∧ Fs.isFhirPackage disk EmptyString = Normal false.
Proof. repeat split. Qed.

(** * Properties of the search tool *)

Section ToolFacts.
Import Tool.

Lemma prefix_true (part s : string) :
  String.prefix part s = true ↔ ∃ post, s = part +:+ post.
Proof.
  revert s. induction part as [|a part IH]; intros s; cbn.
  - destruct s; split; eauto.
  - destruct s as [|b s]; cbn.
    + split; [done|by intros [? ?]].
    + destruct (ascii_dec a b) as [->|Hne].
      * rewrite IH. split; intros [post H]; exists post.
        -- change (String b s = String b (part +:+ post)). by rewrite H.
        -- change (String b s = String b (part +:+ post)) in H. congruence.
      * split; [done|]. intros [post H].
        change (String b s = String a (part +:+ post)) in H. congruence.
Qed.

Lemma includes_true (s part : string) :
  includes s part = true ↔ ∃ pre post, s = pre +:+ part +:+ post.
Proof.
  induction s as [|c s IH]; cbn [includes]; rewrite orb_true_iff.
  - rewrite prefix_true. split.
    + intros [[post H]|?]; [|done]. by exists EmptyString, post.
    + intros (pre & post & H). left.
      destruct pre; [|done]. by exists post.
  - rewrite prefix_true, IH. split.
    + intros [[post H]|(pre & post & H)].
      * by exists EmptyString, post.
      * exists (String c pre), post.
        change (String c s = String c (pre +:+ part +:+ post)). by rewrite H.
    + intros (pre & post & H). destruct pre as [|c' pre].
      * left. by exists post.
      * right. exists pre, post.
        change (String c s = String c' (pre +:+ part +:+ post)) in H.
        congruence.
Qed.

Lemma set_if_lookup_ne key o (params : gmap string Param) k :
  key ≠ k → set_if key o params !! k = params !! k.
Proof.
  intros Hne. unfold set_if. destruct (truthy o); [|done].
  by rewrite lookup_insert_ne.
Qed.

Lemma build_searchParams_no_url options manager params :
  build_searchParams options manager = Normal (Some params) →
  params !! "url" = None.
Proof.
  unfold build_searchParams, mbind, mret, Completion_bind, Completion_ret.
  assert (Hbase : set_if "version" (o_version options)
            (set_if "kind" (o_kind options)
               (set_if "type" (o_type options) ∅)) !! "url" = None).
  { by rewrite !set_if_lookup_ne. }
  destruct (truthy (o_package options)) as [wanted|].
  - destruct (m_packages manager) as [pkgs|]; [|done].
    destruct (find (name_is wanted) pkgs); intros [= <-].
    by rewrite lookup_insert_ne.
  - by intros [= <-].
Qed.

Lemma url_matches_true urlLower entry :
  url_matches urlLower entry = true ↔
    ∃ u pre post, e_url entry = Some u
                  ∧ toLowerCase u = pre +:+ urlLower +:+ post.
Proof.
  unfold url_matches. destruct (e_url entry) as [u|].
  - rewrite includes_true. split.
    + intros (pre & post & H). by exists u, pre, post.
    + intros (u' & pre & post & [= <-] & H). by exists pre, post.
  - split; [done|by intros (? & ? & ? & ? & ?)].
Qed.

Lemma apply_limit_subseteq options (results : list IndexEntry) e :
  e ∈ apply_limit options results → e ∈ results.
Proof.
  unfold apply_limit. destruct (o_limit options) as [n|]; [|done].
  destruct (0 <? n)%Z; [|done]. apply subseteq_take.
Qed.

End ToolFacts.

(** C10, as the claim states it, fails for a [url] option that is the
    empty string: the option is there, nothing is filtered, and an entry
    without a [url] stays among the results. *)
Lemma empty_url_option_filters_nothing :
  Tool.o_url options_empty_url = Some EmptyString
  ∧ Tool.main_try options_empty_url manager
    = Normal (Some [patient_entry; entry_without_url; entry2])
  ∧ e_url entry_without_url = None.
Proof. repeat split. Qed.

(** C10, amended.  The [url] option never reaches [searchEntries]: the
    object that [main] hands over has no [url] key.  When the option is
    there and not empty, the results of the search are filtered
    afterwards, an entry being kept when its [url], in lower case,
    contains the option, in lower case, so that an entry without a [url]
    is never among the results; an empty option is passed over like an
    absent one. *)
Theorem url_option_is_a_post_filter
    (options : Tool.SearchOptions) (manager : Tool.Manager) :
  (∀ params,
     Tool.build_searchParams options manager = Normal (Some params) →
     params !! "url" = None)
  ∧ (∀ url results,
       Tool.o_url options = Some url →
       url ≠ EmptyString →
       Tool.main_try options manager = Normal (Some results) →
       ∃ params found,
         Tool.build_searchParams options manager = Normal (Some params)
         ∧ params !! "url" = None
         ∧ Tool.searchEntries manager params = Normal found
         ∧ results =
             Tool.apply_limit options
               (List.filter (Tool.url_matches (Tool.toLowerCase url)) found)
         ∧ (∀ e, e ∈ results →
              e ∈ found
              ∧ ∃ u pre post,
                  e_url e = Some u
                  ∧ Tool.toLowerCase u = pre +:+ Tool.toLowerCase url +:+ post)
         ∧ (∀ e, e_url e = None → e ∉ results))
  ∧ (∀ params found,
       Tool.o_url options = None ∨ Tool.o_url options = Some EmptyString →
       Tool.init manager = Normal tt →
       Tool.build_searchParams options manager = Normal (Some params) →
       Tool.searchEntries manager params = Normal found →
       Tool.main_try options manager
       = Normal (Some (Tool.apply_limit options found))).
Proof.
  split; [apply build_searchParams_no_url|].
  split; cycle 1.
  { intros params found Hurl Hinit Hb Hs.
    unfold Tool.main_try, mbind, mret, Completion_bind, Completion_ret.
    rewrite Hinit, Hb, Hs. unfold Tool.filter_by_url.
    by destruct Hurl as [->| ->]. }
  intros url results Hurl Hne Hmain.
  unfold Tool.main_try, mbind, mret, Completion_bind, Completion_ret in Hmain.
  destruct (Tool.init manager); [|done].
  destruct (Tool.build_searchParams options manager) as [[params|]|] eqn:Hb;
    [|done..].
  destruct (Tool.searchEntries manager params) as [found|] eqn:Hs; [|done].
  injection Hmain as <-.
  assert (Hfilter : Tool.filter_by_url options found =
            List.filter (Tool.url_matches (Tool.toLowerCase url)) found).
  { unfold Tool.filter_by_url. rewrite Hurl. by destruct url. }
  rewrite Hfilter.
  assert (Hin : ∀ e,
            e ∈ Tool.apply_limit options
                  (List.filter (Tool.url_matches (Tool.toLowerCase url)) found) →
            e ∈ found ∧ Tool.url_matches (Tool.toLowerCase url) e = true).
  { intros e He%apply_limit_subseteq.
    apply list_elem_of_In, filter_In in He as [He ?].
    by apply list_elem_of_In in He. }
  exists params, found.
  split; [done|]. split; [by eapply build_searchParams_no_url|].
  split; [done|]. split; [done|]. split.
  - intros e [He Hm]%Hin. split; [done|]. by apply url_matches_true.
  - intros e Hnone [_ Hm]%Hin. unfold Tool.url_matches in Hm.
    by rewrite Hnone in Hm.
Qed.

(** A run of the tool: [--type StructureDefinition --url PATIENT]
    prints the one entry whose url contains [patient]. *)
Example main_on_store :
  Tool.main options manager = Tool.Printed Tool.table [patient_entry] (Normal tt).
Proof. reflexivity. Qed.

Lemma url_option_is_a_post_filter_witness :
  Tool.main_try options manager = Normal (Some [patient_entry])
  ∧ ∃ params,
      Tool.build_searchParams options manager = Normal (Some params)
      ∧ params !! "url" = None
      ∧ entry_without_url ∉ [patient_entry].
Proof.
  split; [reflexivity|].
  destruct (url_option_is_a_post_filter options manager) as (_ & H & _).
  destruct (H "PATIENT" [patient_entry])
    as (params & found & Hb & Hno & _ & _ & _ & Hout);
    [reflexivity|discriminate|reflexivity|].
  exists params. split; [exact Hb|]. split; [exact Hno|].
  apply Hout. reflexivity.
Defined.

(** * Further properties of the scanner *)


(** X2. A scan never unregisters a package: every name registered
    before is registered after, with the PackageInfo it had unless it is
    the key under which the scanned manifest registers. *)
Theorem scan_keeps_registered_packages
    (I : Imports) (P : string) (c : Cache) (k : string) (old : PackageInfo) :
  keeps_packages I →
  packages c !! k = Some old →
  packages (scan I P c).1 !! k = Some old
  ∨ ∃ m info, read_manifest I P = Normal m
              ∧ registration P m = Normal (k, info)
              ∧ packages (scan I P c).1 !! k = Some info.
Proof.
  intros Hkeep Hold.
  destruct (read_manifest I P) as [m|e] eqn:Hm.
  - destruct (registration P m) as [[k' info]|e] eqn:Hreg.
    + rewrite (scan_packages I P c m k' info) by done.
      destruct (decide (k' = k)) as [->|Hne].
      * right. exists m, info. by rewrite lookup_insert_eq.
      * left. by rewrite lookup_insert_ne.
    + left. destruct (scan_unregistered I P c m) as [-> _]; [done|by rewrite Hreg|done].
  - left. destruct (scan_abandoned I P c) as [-> _]; [by rewrite Hm|done].
Qed.

Lemma scan_keeps_registered_packages_witness :
  packages Samples.other_cache !! "hl7.terminology" = Some Samples.other_info
  ∧ packages (scan imports "/pkgs/core" Samples.other_cache).1 !! "hl7.terminology"
    = Some Samples.other_info.
Proof.
  split; [reflexivity|].
  destruct (scan_keeps_registered_packages imports "/pkgs/core" Samples.other_cache
              "hl7.terminology" Samples.other_info) as [H|(m & info & _ & Hreg & _)].
  - intros d m c. apply spec_processor_keeps_packages.
  - reflexivity.
  - exact H.
  - reflexivity.
Defined.

(** X3. Scanning a package directory a second time leaves
    [cache.packages] as the first scan left it. *)
Theorem rescan_keeps_packages (I : Imports) (P : string) (c : Cache) :
  keeps_packages I →
  packages (scan I P (scan I P c).1).1 = packages (scan I P c).1.
Proof.
  intros Hkeep.
  destruct (read_manifest I P) as [m|e] eqn:Hm.
  - destruct (registration P m) as [[k info]|e] eqn:Hreg.
    + rewrite (scan_packages I P _ m k info) by done.
      rewrite (scan_packages I P c m k info) by done.
      apply insert_insert_eq.
    + destruct (scan_unregistered I P (scan I P c).1 m) as [-> _];
        [done|by rewrite Hreg|done].
  - destruct (scan_abandoned I P (scan I P c).1) as [-> _]; [by rewrite Hm|done].
Qed.

Lemma rescan_keeps_packages_witness :
  packages (scan imports "/pkgs/core" (scan imports "/pkgs/core" empty_cache).1).1
  = packages (scan imports "/pkgs/core" empty_cache).1.
Proof.
  apply (rescan_keeps_packages imports "/pkgs/core" empty_cache).
  intros d m c. apply spec_processor_keeps_packages.
Defined.

(** X4. Two packages that register under different keys can be scanned
    in either order with the same [cache.packages]; when they register
    under one key, the package scanned last is the one registered. *)
Theorem scan_order_and_packages
    (I : Imports) (P1 P2 : string) (c : Cache)
    (m1 m2 : JValue) (k1 k2 : string) (info1 info2 : PackageInfo) :
  keeps_packages I →
  read_manifest I P1 = Normal m1 →
  registration P1 m1 = Normal (k1, info1) →
  read_manifest I P2 = Normal m2 →
  registration P2 m2 = Normal (k2, info2) →
  (k1 ≠ k2 →
     packages (scan I P2 (scan I P1 c).1).1 = packages (scan I P1 (scan I P2 c).1).1)
  ∧ (k1 = k2 →
       packages (scan I P2 (scan I P1 c).1).1 !! k1 = Some info2
       ∧ packages (scan I P1 (scan I P2 c).1).1 !! k1 = Some info1).
Proof.
  intros Hkeep Hm1 Hreg1 Hm2 Hreg2.
  rewrite (scan_packages I P2 _ m2 k2 info2), (scan_packages I P1 c m1 k1 info1),
    (scan_packages I P1 _ m1 k1 info1), (scan_packages I P2 c m2 k2 info2) by done.
  split.
  - intros Hne. by apply insert_insert_ne.
  - intros ->. by rewrite !lookup_insert_eq.
Qed.

Lemma scan_order_and_packages_witness :
  packages (scan imports "/pkgs/bare" (scan imports "/pkgs/core" empty_cache).1).1
  = packages (scan imports "/pkgs/core" (scan imports "/pkgs/bare" empty_cache).1).1.
Proof.
  destruct (scan_order_and_packages imports "/pkgs/core" "/pkgs/bare" empty_cache
              core_manifest (JObject []) "hl7.fhir.r4.core" "undefined"
              core_info (info_of "/pkgs/bare" (JObject []))) as [H _].
  - intros d m c. apply spec_processor_keeps_packages.
  - reflexivity.
  - reflexivity.
  - reflexivity.
  - reflexivity.
  - apply H. discriminate.
Defined.

(** X5. A manifest that parses but cannot be registered, because it is
    [null] or because its name does not convert to a property key,
    leaves the cache as it was: nothing is registered and the Index
    Processor is not called. *)
Theorem unregistrable_manifest_leaves_cache
    (I : Imports) (P : string) (c : Cache) (m : JValue) :
  read_manifest I P = Normal m →
  m = JNull ∨ is_normal (ToPropertyKey (member m "name")) = false →
  scan I P c = (c, Normal tt) ∧ scan_calls I P c = [].
Proof.
  intros Hm Hbad. apply (scan_unregistered I P c m Hm).
  destruct Hbad as [->|Hkey]; [done|].
  destruct m; [done|rewrite registration_not_null by done..];
    by destruct (ToPropertyKey _).
Qed.

Lemma unregistrable_manifest_leaves_cache_witness :
  read_manifest Samples.imports_odd_name "/pkgs/odd" = Normal Samples.odd_manifest
  ∧ ToPropertyKey (member Samples.odd_manifest "name") = Thrown TypeError
  ∧ scan Samples.imports_odd_name "/pkgs/odd" Samples.other_cache
    = (Samples.other_cache, Normal tt)
  ∧ scan_calls Samples.imports_odd_name "/pkgs/odd" Samples.other_cache = [].
Proof.
  split; [reflexivity|]. split; [reflexivity|].
  apply (unregistrable_manifest_leaves_cache Samples.imports_odd_name "/pkgs/odd"
           Samples.other_cache Samples.odd_manifest).
  - reflexivity.
  - right. reflexivity.
Defined.

(** X6. In a sequence of scans, the packages whose manifest cannot be
    read, parsed or registered can be left out: the cache at the end is
    the same. *)
Theorem unscannable_packages_can_be_skipped
    (I : Imports) (paths : list string) (c : Cache) :
  foldl (fun c P => (scan I P c).1) c paths =
    foldl (fun c P => (scan I P c).1) c
      (List.filter
         (fun P => is_normal (m ← read_manifest I P; registration P m)) paths).
Proof.
  revert c. induction paths as [|P paths IH]; intros c; [done|].
  cbn [foldl List.filter].
  destruct (read_manifest I P) as [m|e] eqn:Hm; cbn.
  - destruct (registration P m) as [[k info]|e] eqn:Hreg; cbn.
    + apply IH.
    + destruct (scan_unregistered I P c m) as [-> _]; [done|by rewrite Hreg|].
      apply IH.
  - destruct (scan_abandoned I P c) as [-> _]; [by rewrite Hm|]. apply IH.
Qed.

(** * Properties of the command line *)

Section ParseFacts.
Import Cli.
Context (parseInt : string -> option Z).

Ltac flag x :=
  let E := fresh "E" in
  destruct (String.eqb x _) eqn:E;
  [apply String.eqb_eq in E; subst x|].

Lemma parseArgs_from_app_bounded (n : nat) :
  ∀ (a b : list string) (o : Tool.SearchOptions),
    length a ≤ n →
    complete a = true →
    parseArgs_from parseInt (a ++ b) o =
      match parseArgs_from parseInt a o with
      | Parsed o' => parseArgs_from parseInt b o'
      | Exited code message => Exited code message
      end.
Proof.
  induction n as [|n IH]; intros a b o Hlen Hc.
  { destruct a; [done|cbn in Hlen; lia]. }
  destruct a as [|x rest]; [done|].
  assert (Hrest : ∀ o', complete rest = true →
            parseArgs_from parseInt (rest ++ b) o' =
              match parseArgs_from parseInt rest o' with
              | Parsed o'' => parseArgs_from parseInt b o''
              | Exited code message => Exited code message
              end).
  { intros o' Hc'. apply IH; [cbn in Hlen; lia|done]. }
  assert (Hrest2 : ∀ v rest' o', rest = v :: rest' → complete rest' = true →
            parseArgs_from parseInt (rest' ++ b) o' =
              match parseArgs_from parseInt rest' o' with
              | Parsed o'' => parseArgs_from parseInt b o''
              | Exited code message => Exited code message
              end).
  { intros v rest' o' -> Hc'. apply IH; [cbn in Hlen; lia|done]. }
  cbn [parseArgs_from complete app] in *. unfold takes_value in Hc.
  destruct (String.eqb x "--help") eqn:E1;
    [apply String.eqb_eq in E1; subst x; cbn in *; by apply Hrest|].
  destruct (String.eqb x "-h") eqn:E2;
    [apply String.eqb_eq in E2; subst x; cbn in *; by apply Hrest|].
  cbn [orb].
  destruct (String.eqb x "--url") eqn:E3;
    [destruct rest as [|v rest']; [done|]; cbn in Hc |- *; by eapply Hrest2|].
  destruct (String.eqb x "--type") eqn:E4;
    [destruct rest as [|v rest']; [done|]; cbn in Hc |- *; by eapply Hrest2|].
  destruct (String.eqb x "--kind") eqn:E5;
    [destruct rest as [|v rest']; [done|]; cbn in Hc |- *; by eapply Hrest2|].
  destruct (String.eqb x "--package") eqn:E6;
    [destruct rest as [|v rest']; [done|]; cbn in Hc |- *; by eapply Hrest2|].
  destruct (String.eqb x "--version") eqn:E7;
    [destruct rest as [|v rest']; [done|]; cbn in Hc |- *; by eapply Hrest2|].
  destruct (String.eqb x "--format") eqn:E8;
    [destruct rest as [|v rest']; [done|]; cbn in Hc |- *;
     destruct (format_of v); [by eapply Hrest2|done]|].
  destruct (String.eqb x "--limit") eqn:E9;
    [destruct rest as [|v rest']; [done|]; cbn in Hc |- *;
     destruct v; [by eapply Hrest2|];
     destruct (parseInt _); [by eapply Hrest2|done]|].
  done.
Qed.

Lemma parseArgs_from_app (a b : list string) (o : Tool.SearchOptions) :
  complete a = true →
  parseArgs_from parseInt (a ++ b) o =
    match parseArgs_from parseInt a o with
    | Parsed o' => parseArgs_from parseInt b o'
    | Exited code message => Exited code message
    end.
Proof. by apply (parseArgs_from_app_bounded (length a)). Qed.

End ParseFacts.

(** X7. The arguments are handled from left to right: after a run of
    arguments in which every option has its value, the rest of the
    command line is parsed from the options reached so far, and an exit
    in that run is the exit of the whole. *)
Theorem parseArgs_left_to_right
    (parseInt : string -> option Z) (a b : list string) :
  Cli.complete a = true →
  Cli.parseArgs parseInt (a ++ b) =
    match Cli.parseArgs parseInt a with
    | Cli.Parsed o => Cli.parseArgs_from parseInt b o
    | Cli.Exited code message => Cli.Exited code message
    end.
Proof. intros Hc. by apply parseArgs_from_app. Qed.

Lemma parseArgs_left_to_right_witness :
  Cli.complete ["--type"; "ValueSet"; "--limit"; "5"] = true
  ∧ Cli.parseArgs Samples.parseInt
      (["--type"; "ValueSet"; "--limit"; "5"] ++ ["--type"; "CodeSystem"])
    = Cli.Parsed (Cli.set_type (Some "CodeSystem")
                    (Cli.set_limit 5 (Cli.set_type (Some "ValueSet")
                                        Cli.initial_options))).
Proof.
  split; [reflexivity|].
  rewrite (parseArgs_left_to_right Samples.parseInt
             ["--type"; "ValueSet"; "--limit"; "5"] ["--type"; "CodeSystem"]);
    reflexivity.
Defined.

(** X8. An argument in the place of an option that is none of the known
    options ends the run with exit code 1 and the message naming it,
    whatever follows it and whatever was parsed before. *)
Theorem unknown_option_exits
    (parseInt : string -> option Z) (a b : list string) (bad : string)
    (o : Tool.SearchOptions) :
  Cli.complete a = true →
  Cli.parseArgs parseInt a = Cli.Parsed o →
  Cli.known bad = false →
  Cli.parseArgs parseInt (a ++ bad :: b) = Cli.Exited 1 ("Unknown option: " +:+ bad).
Proof.
  intros Hc Ha Hbad. unfold Cli.parseArgs in *.
  rewrite parseArgs_from_app, Ha by done.
  unfold Cli.known, Cli.takes_value in Hbad.
  rewrite !orb_false_iff in Hbad. destruct_and!.
  cbn [Cli.parseArgs_from].
  by repeat match goal with H : _ = false |- _ => rewrite H; clear H end.
Qed.

Lemma unknown_option_exits_witness :
  Cli.parseArgs Samples.parseInt (["--kind"; "resource"] ++ "--verbose" :: ["--help"])
  = Cli.Exited 1 "Unknown option: --verbose".
Proof.
  apply (unknown_option_exits Samples.parseInt ["--kind"; "resource"] ["--help"]
           "--verbose" (Cli.set_kind (Some "resource") Cli.initial_options));
    reflexivity.
Defined.

(** X9. An option that takes a value and comes last, without one: for
    [--url], [--type], [--kind], [--package] and [--version] the option
    is cleared, also when it was given earlier, and no error is raised;
    [--limit] leaves the limit as it was; [--format] exits with code 1. *)
Theorem trailing_option_without_value
    (parseInt : string -> option Z) (a : list string) (o : Tool.SearchOptions) :
  Cli.complete a = true →
  Cli.parseArgs parseInt a = Cli.Parsed o →
  Cli.parseArgs parseInt (a ++ ["--url"]) = Cli.Parsed (Cli.set_url None o)
  ∧ Cli.parseArgs parseInt (a ++ ["--type"]) = Cli.Parsed (Cli.set_type None o)
  ∧ Cli.parseArgs parseInt (a ++ ["--kind"]) = Cli.Parsed (Cli.set_kind None o)
  ∧ Cli.parseArgs parseInt (a ++ ["--package"])
    = Cli.Parsed (Cli.set_package_name None o)
  ∧ Cli.parseArgs parseInt (a ++ ["--version"]) = Cli.Parsed (Cli.set_version None o)
  ∧ Cli.parseArgs parseInt (a ++ ["--limit"]) = Cli.Parsed o
  ∧ Cli.parseArgs parseInt (a ++ ["--format"])
    = Cli.Exited 1 "Invalid format: undefined. Must be json, table, or csv".
Proof.
  intros Hc Ha. unfold Cli.parseArgs in *.
  rewrite !parseArgs_from_app, Ha by done. by repeat split.
Qed.

Lemma trailing_option_without_value_witness :
  Cli.parseArgs Samples.parseInt (["--url"; "Patient"] ++ ["--url"])
  = Cli.Parsed Cli.initial_options
  ∧ Cli.parseArgs Samples.parseInt (["--url"; "Patient"] ++ ["--limit"])
    = Cli.Parsed (Cli.set_url (Some "Patient") Cli.initial_options).
Proof.
  destruct (trailing_option_without_value Samples.parseInt ["--url"; "Patient"]
              (Cli.set_url (Some "Patient") Cli.initial_options))
    as (Hurl & _ & _ & _ & _ & Hlimit & _); [reflexivity..|].
  split; [exact Hurl|exact Hlimit].
Defined.

Section ParseProvenance.
Import Cli.
Context (parseInt : string -> option Z).

Lemma from_arguments_refl (args : list string) (o : Tool.SearchOptions) :
  from_arguments parseInt args o o.
Proof. unfold from_arguments. split_and!; auto. Qed.

Lemma from_arguments_step (used args : list string) (o o1 o' : Tool.SearchOptions) :
  from_arguments parseInt used o o1 →
  from_arguments parseInt args o1 o' →
  from_arguments parseInt (used ++ args) o o'.
Proof.
  intros (A1 & A2 & A3 & A4 & A5 & A6 & A7 & A8)
         (B1 & B2 & B3 & B4 & B5 & B6 & B7 & B8).
  assert (Hfield : ∀ (f : Tool.SearchOptions → option string),
            (∀ v, f o1 = Some v → f o = Some v ∨ v ∈ used) →
            (∀ v, f o' = Some v → f o1 = Some v ∨ v ∈ args) →
            ∀ v, f o' = Some v → f o = Some v ∨ v ∈ used ++ args).
  { intros f A B v Hv. destruct (B v Hv) as [H|H].
    - destruct (A v H) as [?|?]; [by left|right; apply elem_of_app; by left].
    - right. apply elem_of_app. by right. }
  split_and!; [by apply Hfield..| | |].
  - intros n Hn. destruct (B6 n Hn) as [H|(v & Hv & Hp)].
    + destruct (A6 n H) as [?|(v & Hv & Hp)]; [by left|].
      right. exists v. split; [apply elem_of_app; by left|done].
    + right. exists v. split; [apply elem_of_app; by right|done].
  - destruct B7 as [H|(v & Hv & Hf)].
    + destruct A7 as [H'|(v & Hv & Hf)]; [left; congruence|].
      right. exists v. split; [apply elem_of_app; by left|congruence].
    + right. exists v. split; [apply elem_of_app; by right|done].
  - intros Hh. destruct (B8 Hh) as [H|[H|H]].
    + destruct (A8 H) as [?|[?|?]]; [by left|right; left|right; right];
        apply elem_of_app; by left.
    + right; left. apply elem_of_app. by right.
    + right; right. apply elem_of_app. by right.
Qed.

(** The effect of one option on the options. *)
Lemma from_arguments_set (x v : string) (o o1 : Tool.SearchOptions) :
  o1 = set_url (Some v) o ∨ o1 = set_type (Some v) o ∨ o1 = set_kind (Some v) o
  ∨ o1 = set_package_name (Some v) o ∨ o1 = set_version (Some v) o →
  from_arguments parseInt [x; v] o o1.
Proof.
  assert (Hv : v ∈ [x; v]) by (apply elem_of_cons; right; apply elem_of_cons; by left).
  intros [->|[->|[->|[->| ->]]]]; unfold from_arguments; cbn;
    split_and!; auto; by intros ? [= <-]; right.
Qed.

Lemma from_arguments_clear (x : string) (o o1 : Tool.SearchOptions) :
  o1 = set_url None o ∨ o1 = set_type None o ∨ o1 = set_kind None o
  ∨ o1 = set_package_name None o ∨ o1 = set_version None o →
  from_arguments parseInt [x] o o1.
Proof.
  intros [->|[->|[->|[->| ->]]]]; unfold from_arguments; cbn;
    split_and!; auto; done.
Qed.

Lemma parseArgs_from_provenance (n : nat) :
  ∀ (args : list string) (o o' : Tool.SearchOptions),
    length args ≤ n →
    parseArgs_from parseInt args o = Parsed o' →
    from_arguments parseInt args o o'.
Proof.
  induction n as [|n IH]; intros args o o' Hlen Hp.
  { destruct args; [|cbn in Hlen; lia]. injection Hp as <-. apply from_arguments_refl. }
  destruct args as [|x rest]; [injection Hp as <-; apply from_arguments_refl|].
  assert (Hone : ∀ o1, from_arguments parseInt [x] o o1 →
            parseArgs_from parseInt rest o1 = Parsed o' →
            from_arguments parseInt (x :: rest) o o').
  { intros o1 H1 H2. apply (from_arguments_step [x] rest o o1 o' H1).
    apply IH; [cbn in Hlen; lia|done]. }
  assert (Htwo : ∀ v rest' o1, rest = v :: rest' →
            from_arguments parseInt [x; v] o o1 →
            parseArgs_from parseInt rest' o1 = Parsed o' →
            from_arguments parseInt (x :: rest) o o').
  { intros v rest' o1 -> H1 H2.
    apply (from_arguments_step [x; v] rest' o o1 o' H1).
    apply IH; [cbn in Hlen; lia|done]. }
  assert (Hhelp : ∀ flag, flag = "--help" ∨ flag = "-h" →
            from_arguments parseInt [flag] o (set_help o)).
  { intros flag Hflag. unfold from_arguments; cbn. split_and!; auto.
    intros _. destruct Hflag as [->| ->];
      [right; left|right; right]; apply elem_of_cons; by left. }
  cbn [parseArgs_from] in Hp.
  destruct (String.eqb x "--help") eqn:E1.
  { apply String.eqb_eq in E1. subst x. cbn in Hp. eapply Hone; [|done]. auto. }
  destruct (String.eqb x "-h") eqn:E2.
  { apply String.eqb_eq in E2. subst x. cbn in Hp. eapply Hone; [|done]. auto. }
  cbn [orb] in Hp.
  destruct (String.eqb x "--url") eqn:E3.
  { destruct rest as [|v rest'].
    - injection Hp as <-. apply from_arguments_clear. auto.
    - eapply Htwo; [done| |done]. apply from_arguments_set. auto. }
  destruct (String.eqb x "--type") eqn:E4.
  { destruct rest as [|v rest'].
    - injection Hp as <-. apply from_arguments_clear. auto.
    - eapply Htwo; [done| |done]. apply from_arguments_set. auto. }
  destruct (String.eqb x "--kind") eqn:E5.
  { destruct rest as [|v rest'].
    - injection Hp as <-. apply from_arguments_clear. auto.
    - eapply Htwo; [done| |done]. apply from_arguments_set. auto. }
  destruct (String.eqb x "--package") eqn:E6.
  { destruct rest as [|v rest'].
    - injection Hp as <-. apply from_arguments_clear. auto 6.
    - eapply Htwo; [done| |done]. apply from_arguments_set. auto 6. }
  destruct (String.eqb x "--version") eqn:E7.
  { destruct rest as [|v rest'].
    - injection Hp as <-. apply from_arguments_clear. auto 6.
    - eapply Htwo; [done| |done]. apply from_arguments_set. auto 6. }
  destruct (String.eqb x "--format") eqn:E8.
  { destruct rest as [|v rest']; [done|].
    destruct (format_of v) as [f|] eqn:Hf; [|done].
    eapply Htwo; [done| |done].
    unfold from_arguments; cbn. split_and!; auto.
    right. exists v. split; [|done].
    apply elem_of_cons; right; apply elem_of_cons; by left. }
  destruct (String.eqb x "--limit") eqn:E9; [|done].
  destruct rest as [|v rest'].
  { injection Hp as <-. apply from_arguments_refl. }
  destruct v as [|ch v'].
  { eapply Htwo; [done| |done]. apply from_arguments_refl. }
  destruct (parseInt (String ch v')) as [k|] eqn:Hk; [|done].
  eapply Htwo; [done| |done].
  unfold from_arguments; cbn. split_and!; auto.
  intros k' [= <-]. right. exists (String ch v'). split; [|done].
  apply elem_of_cons; right; apply elem_of_cons; by left.
Qed.

End ParseProvenance.

(** X10. [parseArgs] invents nothing: a string option of the result is
    one of the arguments, the limit is what [parseInt] makes of one of
    them, the format is [table] unless an argument names another, and
    help is asked for only by [--help] or [-h]. *)
Theorem parseArgs_values_come_from_arguments
    (parseInt : string -> option Z) (args : list string) (o : Tool.SearchOptions) :
  Cli.parseArgs parseInt args = Cli.Parsed o →
  (∀ v, Tool.o_url o = Some v → v ∈ args)
  ∧ (∀ v, Tool.o_type o = Some v → v ∈ args)
  ∧ (∀ v, Tool.o_kind o = Some v → v ∈ args)
  ∧ (∀ v, Tool.o_package o = Some v → v ∈ args)
  ∧ (∀ v, Tool.o_version o = Some v → v ∈ args)
  ∧ (∀ n, Tool.o_limit o = Some n → ∃ v, v ∈ args ∧ parseInt v = Some n)
  ∧ (Tool.o_format o = Tool.table
     ∨ ∃ v, v ∈ args ∧ Cli.format_of v = Some (Tool.o_format o))
  ∧ (Tool.o_help o = true → "--help" ∈ args ∨ "-h" ∈ args).
Proof.
  intros Hp.
  pose proof (parseArgs_from_provenance parseInt (length args) args
                Cli.initial_options o (le_n _) Hp) as H.
  destruct H as (H1 & H2 & H3 & H4 & H5 & H6 & H7 & H8). cbn in *.
  assert (Hfield : ∀ (f : Tool.SearchOptions → option string),
            (∀ v, f o = Some v → None = Some v ∨ v ∈ args) →
            ∀ v, f o = Some v → v ∈ args).
  { intros f H v Hv. by destruct (H v Hv). }
  split_and!; [by apply Hfield..| | |].
  - intros n Hn. by destruct (H6 n Hn).
  - done.
  - intros Hh. by destruct (H8 Hh).
Qed.

Lemma parseArgs_values_come_from_arguments_witness :
  Cli.parseArgs Samples.parseInt ["--url"; "Patient"; "--format"; "csv"; "-h"]
  = Cli.Parsed (Cli.set_help (Cli.set_format Tool.csv
                  (Cli.set_url (Some "Patient") Cli.initial_options)))
  ∧ "Patient" ∈ ["--url"; "Patient"; "--format"; "csv"; "-h"].
Proof.
  split; [reflexivity|].
  destruct (parseArgs_values_come_from_arguments Samples.parseInt
              ["--url"; "Patient"; "--format"; "csv"; "-h"]
              (Cli.set_help (Cli.set_format Tool.csv
                 (Cli.set_url (Some "Patient") Cli.initial_options))))
    as (Hurl & _); [reflexivity|].
  apply Hurl. reflexivity.
Defined.

(** * Further properties of the search tool *)

Lemma set_if_lookup key o (params : gmap string Tool.Param) :
  Tool.set_if key o params !! key
  = match Tool.truthy o with
    | Some s => Some (Tool.PString s)
    | None => params !! key
    end.
Proof.
  unfold Tool.set_if. destruct (Tool.truthy o); [apply lookup_insert_eq|done].
Qed.

Lemma set_if_is_Some key o (params : gmap string Tool.Param) k :
  is_Some (Tool.set_if key o params !! k) → k = key ∨ is_Some (params !! k).
Proof.
  unfold Tool.set_if. destruct (Tool.truthy o); [|auto].
  destruct (decide (key = k)) as [->|Hne]; [auto|].
  rewrite lookup_insert_ne by done. auto.
Qed.

(** X11. The object handed to [searchEntries] holds the criteria that
    were given and nothing else: [type], [kind] and [version] are there
    exactly when the option is a non-empty string, with that string;
    [package] is there exactly when a package was asked for, and is then
    the first package that the manager lists under that name. *)
Theorem searchParams_hold_the_given_criteria
    (options : Tool.SearchOptions) (manager : Tool.Manager)
    (params : gmap string Tool.Param) :
  Tool.build_searchParams options manager = Normal (Some params) →
  params !! "type" = Tool.PString <$> Tool.truthy (Tool.o_type options)
  ∧ params !! "kind" = Tool.PString <$> Tool.truthy (Tool.o_kind options)
  ∧ params !! "version" = Tool.PString <$> Tool.truthy (Tool.o_version options)
  ∧ (Tool.truthy (Tool.o_package options) = None → params !! "package" = None)
  ∧ (∀ wanted, Tool.truthy (Tool.o_package options) = Some wanted →
       ∃ pkgs pkg, Tool.m_packages manager = Normal pkgs
                   ∧ find (Tool.name_is wanted) pkgs = Some pkg
                   ∧ pid_name pkg = Some (JString wanted)
                   ∧ params !! "package" = Some (Tool.PPackage pkg))
  ∧ (∀ k, is_Some (params !! k) → k ∈ ["type"; "kind"; "version"; "package"]).
Proof.
  unfold Tool.build_searchParams, mbind, mret, Completion_bind, Completion_ret.
  set (base := Tool.set_if "version" (Tool.o_version options)
                 (Tool.set_if "kind" (Tool.o_kind options)
                    (Tool.set_if "type" (Tool.o_type options) ∅))).
  assert (Ht : base !! "type" = Tool.PString <$> Tool.truthy (Tool.o_type options)).
  { unfold base. rewrite !set_if_lookup_ne by done. rewrite set_if_lookup.
    by destruct (Tool.truthy _). }
  assert (Hk : base !! "kind" = Tool.PString <$> Tool.truthy (Tool.o_kind options)).
  { unfold base. rewrite set_if_lookup_ne by done. rewrite set_if_lookup.
    rewrite set_if_lookup_ne by done. by destruct (Tool.truthy _). }
  assert (Hv : base !! "version" = Tool.PString <$> Tool.truthy (Tool.o_version options)).
  { unfold base. rewrite set_if_lookup. rewrite !set_if_lookup_ne by done.
    by destruct (Tool.truthy _). }
  assert (Hp : base !! "package" = None).
  { unfold base. by rewrite !set_if_lookup_ne. }
  assert (Hdom : ∀ k, is_Some (base !! k) → k ∈ ["type"; "kind"; "version"]).
  { intros k H. unfold base in H.
    apply set_if_is_Some in H as [->|H]; [by repeat constructor|].
    apply set_if_is_Some in H as [->|H]; [by repeat constructor|].
    apply set_if_is_Some in H as [->|H]; [by repeat constructor|].
    rewrite lookup_empty in H. by destruct H. }
  assert (Hmore : ∀ k, k ∈ ["type"; "kind"; "version"] →
            k ∈ ["type"; "kind"; "version"; "package"]).
  { intros k Hk'. change (k ∈ ["type"; "kind"; "version"] ++ ["package"]).
    apply elem_of_app. by left. }
  destruct (Tool.truthy (Tool.o_package options)) as [wanted|].
  - destruct (Tool.m_packages manager) as [pkgs|]; [|done].
    destruct (find (Tool.name_is wanted) pkgs) as [pkg|] eqn:Hfind; [|done].
    intros [= <-]. rewrite !lookup_insert_ne by done. rewrite lookup_insert_eq.
    split_and!; [done..| |].
    + intros w [= <-]. exists pkgs, pkg. split_and!; [done..| |done].
      apply find_some in Hfind as [_ Hn]. unfold Tool.name_is in Hn.
      destruct (pid_name pkg) as [[| | |s| |]|]; try done.
      by apply String.eqb_eq in Hn as ->.
    + intros k H. destruct (decide (k = "package")) as [->|Hne];
        [by repeat constructor|].
      rewrite lookup_insert_ne in H by done. by apply Hmore, Hdom.
  - intros [= <-]. split_and!; [done..| |].
    + by intros w.
    + intros k H. by apply Hmore, Hdom.
Qed.

Lemma searchParams_hold_the_given_criteria_witness :
  ∃ params,
    Tool.build_searchParams Samples.options_by_package Samples.manager
    = Normal (Some params)
    ∧ params !! "type" = Some (Tool.PString "ValueSet")
    ∧ params !! "kind" = None
    ∧ params !! "package" = Some (Tool.PPackage (pi_id core_info)).
Proof.
  destruct (Tool.build_searchParams Samples.options_by_package Samples.manager)
    as [[params|]|] eqn:Hb; [|discriminate Hb..].
  exists params. split; [reflexivity|].
  destruct (searchParams_hold_the_given_criteria
              Samples.options_by_package Samples.manager params Hb)
    as (Ht & Hk & _ & _ & Hp & _).
  split; [exact Ht|]. split; [exact Hk|].
  destruct (Hp "hl7.fhir.r4.core" eq_refl) as (pkgs & pkg & Hpk & Hf & _ & Hl).
  injection Hpk as <-. injection Hf as <-. exact Hl.
Defined.

(** X12. Asking for a package that the manager does not list, or asking
    for one when the manager cannot list its packages, ends the tool
    with exit code 1: nothing is searched and nothing is printed. *)
Theorem unknown_package_exits
    (options : Tool.SearchOptions) (manager : Tool.Manager) (wanted : string) :
  Tool.o_help options = false →
  Tool.truthy (Tool.o_package options) = Some wanted →
  (∀ pkgs p, Tool.m_packages manager = Normal pkgs → p ∈ pkgs →
     pid_name p ≠ Some (JString wanted)) →
  Tool.main options manager = Tool.Exit 1.
Proof.
  intros Hh Hw Hnone. unfold Tool.main, Tool.main_try, Tool.build_searchParams,
    mbind, mret, Completion_bind, Completion_ret.
  rewrite Hh, Hw. destruct (Tool.init manager); [|done].
  destruct (Tool.m_packages manager) as [pkgs|]; [|done].
  destruct (find (Tool.name_is wanted) pkgs) as [pkg|] eqn:Hfind; [|done].
  apply find_some in Hfind as [Hin Hn]. exfalso.
  apply (Hnone pkgs pkg eq_refl); [by apply list_elem_of_In|].
  unfold Tool.name_is in Hn.
  destruct (pid_name pkg) as [[| | |s| |]|]; try done.
  by apply String.eqb_eq in Hn as ->.
Qed.

Lemma unknown_package_exits_witness :
  Tool.main Samples.options_unknown_package Samples.manager = Tool.Exit 1.
Proof.
  apply (unknown_package_exits Samples.options_unknown_package Samples.manager
           "hl7.fhir.us.core"); [reflexivity..|].
  intros pkgs p [= <-] Hp Hname.
  apply elem_of_cons in Hp as [->|Hp]; [discriminate Hname|].
  apply elem_of_cons in Hp as [->|Hp]; [discriminate Hname|].
  by apply elem_of_nil in Hp.
Defined.

(** X13. What the tool prints is a selection of what the search
    returned, in the same order; with a limit above zero at most that
    many entries are printed, the first ones of the selection, and with
    no limit, a limit of zero or a negative one, the whole selection. *)
Theorem printed_results_are_a_bounded_selection
    (options : Tool.SearchOptions) (manager : Tool.Manager)
    (format : Tool.Format) (results : list IndexEntry) (after : Completion unit) :
  Tool.main options manager = Tool.Printed format results after →
  ∃ params found,
    Tool.build_searchParams options manager = Normal (Some params)
    ∧ Tool.searchEntries manager params = Normal found
    ∧ sublist results found
    ∧ (∀ n, Tool.o_limit options = Some n → (0 < n)%Z →
         results = take (Z.to_nat n) (Tool.filter_by_url options found)
         ∧ length results ≤ Z.to_nat n)
    ∧ ((∀ n, Tool.o_limit options = Some n → (n ≤ 0)%Z) →
         results = Tool.filter_by_url options found).
Proof.
  unfold Tool.main, Tool.main_try, mbind, mret, Completion_bind, Completion_ret.
  destruct (Tool.o_help options); [done|].
  destruct (Tool.init manager); [|done].
  destruct (Tool.build_searchParams options manager) as [[params|]|] eqn:Hb;
    [|done..].
  destruct (Tool.searchEntries manager params) as [found|] eqn:Hs; [|done].
  intros [= _ <- _]. exists params, found.
  split; [done|]. split; [done|]. split; [|split].
  - transitivity (Tool.filter_by_url options found).
    + unfold Tool.apply_limit. destruct (Tool.o_limit options) as [n|]; [|done].
      destruct (0 <? n)%Z; [apply sublist_take|done].
    + unfold Tool.filter_by_url. destruct (Tool.truthy _); [|done].
      clear Hs. induction found as [|e found IH]; cbn [List.filter]; [done|].
      destruct (Tool.url_matches _ e);
        [apply sublist_skip|apply sublist_cons]; exact IH.
  - intros n Hn Hpos. unfold Tool.apply_limit. rewrite Hn.
    destruct (Z.ltb_spec 0 n) as [_|?]; [|lia].
    split; [done|]. rewrite length_take. lia.
  - intros Hle. unfold Tool.apply_limit.
    destruct (Tool.o_limit options) as [n|]; [|done].
    destruct (Z.ltb_spec 0 n) as [?|_]; [|done].
    specialize (Hle n eq_refl). lia.
Qed.

Lemma printed_results_are_a_bounded_selection_witness :
  Tool.main Samples.options_limit_2 Samples.manager
  = Tool.Printed Tool.json [patient_entry; entry_without_url] (Normal tt)
  ∧ length [patient_entry; entry_without_url] ≤ 2.
Proof.
  split; [reflexivity|].
  destruct (printed_results_are_a_bounded_selection Samples.options_limit_2
              Samples.manager Tool.json [patient_entry; entry_without_url]
              (Normal tt) eq_refl)
    as (params & found & _ & _ & _ & Hlimit & _).
  exact (proj2 (Hlimit 2%Z eq_refl eq_refl)).
Defined.

Lemma lower_char_idempotent (c : ascii) :
  Tool.lower_char (Tool.lower_char c) = Tool.lower_char c.
Proof. destruct c as [[] [] [] [] [] [] [] []]; reflexivity. Qed.

Lemma toLowerCase_idempotent (s : string) :
  Tool.toLowerCase (Tool.toLowerCase s) = Tool.toLowerCase s.
Proof.
  induction s as [|c s IH]; cbn; [done|].
  by rewrite lower_char_idempotent, IH.
Qed.

(** X14. The url filter does not see case: an option that differs from
    the one given only in the case of its letters selects the same
    entries, its lower-case form among them, and two entries whose urls
    differ only in case are kept or dropped together. *)
Theorem url_filter_ignores_case
    (options : Tool.SearchOptions) (u u' : string) (results : list IndexEntry) :
  Tool.o_url options = Some u →
  u ≠ EmptyString →
  Tool.toLowerCase u' = Tool.toLowerCase u →
  Tool.filter_by_url (Cli.set_url (Some u') options) results
  = Tool.filter_by_url options results
  ∧ Tool.filter_by_url (Cli.set_url (Some (Tool.toLowerCase u)) options) results
    = Tool.filter_by_url options results
  ∧ (∀ e1 e2 s1 s2,
       e_url e1 = Some s1 → e_url e2 = Some s2 →
       Tool.toLowerCase s1 = Tool.toLowerCase s2 →
       Tool.url_matches (Tool.toLowerCase u) e1
       = Tool.url_matches (Tool.toLowerCase u) e2).
Proof.
  intros Hu Hne Hsame.
  assert (Hlow : ∀ v, Tool.toLowerCase v = Tool.toLowerCase u →
            Tool.filter_by_url (Cli.set_url (Some v) options) results
            = Tool.filter_by_url options results).
  { intros v Hv. unfold Tool.filter_by_url. cbn. rewrite Hu.
    destruct u as [|c u]; [done|]. destruct v as [|d v]; [done|].
    cbn [Tool.truthy]. by rewrite Hv. }
  split; [by apply Hlow|].
  split; [apply Hlow, toLowerCase_idempotent|].
  intros e1 e2 s1 s2 H1 H2 Hs. unfold Tool.url_matches. by rewrite H1, H2, Hs.
Qed.

Lemma url_filter_ignores_case_witness :
  Tool.filter_by_url (Cli.set_url (Some "patient") options)
    [patient_entry; entry_without_url; entry2]
  = Tool.filter_by_url options [patient_entry; entry_without_url; entry2]
  ∧ Tool.filter_by_url options [patient_entry; entry_without_url; entry2]
    = [patient_entry].
Proof.
  split; [|reflexivity].
  apply (url_filter_ignores_case options "PATIENT" "patient"); [reflexivity| |reflexivity].
  discriminate.
Defined.

(** * Properties of the output *)

Section OutputFacts.
Import Cli.

Lemma string_app_assoc (a b c : string) : (a +:+ b) +:+ c = a +:+ (b +:+ c).
Proof.
  induction a as [|x a IH]; [done|].
  change (String x ((a +:+ b) +:+ c) = String x (a +:+ (b +:+ c))). by rewrite IH.
Qed.

Lemma string_length_app (a b : string) :
  String.length (a +:+ b) = String.length a + String.length b.
Proof.
  induction a as [|x a IH]; [done|].
  change (S (String.length (a +:+ b)) = S (String.length a + String.length b)).
  by rewrite IH.
Qed.

Lemma read_field_double_quotes (f tail : string) :
  (∀ rest, tail ≠ String dquote rest) →
  read_field (double_quotes f +:+ String dquote tail) = Some (f, tail).
Proof.
  intros Htail. induction f as [|c f IH].
  - change (read_field (String dquote tail) = Some (EmptyString, tail)).
    cbn [read_field]. rewrite Ascii.eqb_refl.
    destruct tail as [|c' rest]; [done|].
    destruct (Ascii.eqb_spec c' dquote) as [->|_]; [by destruct (Htail rest)|done].
  - cbn [double_quotes]. destruct (Ascii.eqb_spec c dquote) as [->|Hc].
    + change (read_field (String dquote (String dquote
                (double_quotes f +:+ String dquote tail)))
              = Some (String dquote f, tail)).
      cbn [read_field]. rewrite !Ascii.eqb_refl. by rewrite IH.
    + change (read_field (String c (double_quotes f +:+ String dquote tail))
              = Some (String c f, tail)).
      cbn [read_field]. destruct (Ascii.eqb_spec c dquote) as [?|_]; [done|].
      by rewrite IH.
Qed.

Lemma csv_line_cons (f : string) (fields : list string) :
  csv_line (f :: fields)
  = String dquote (double_quotes f +:+ String dquote (line_tail fields)).
Proof.
  destruct fields as [|g fields]; [done|].
  transitivity (String dquote ((double_quotes f +:+ String dquote EmptyString)
                               +:+ line_tail (g :: fields))); [done|].
  by rewrite string_app_assoc.
Qed.

Lemma line_tail_no_quote (fields : list string) (rest : string) :
  line_tail fields ≠ String dquote rest.
Proof. by destruct fields. Qed.

Lemma csv_line_inj (fs fs' : list string) :
  csv_line fs = csv_line fs' → fs = fs'.
Proof.
  revert fs'. induction fs as [|f fs IH]; intros [|f' fs'] H.
  - done.
  - by rewrite csv_line_cons in H.
  - by rewrite csv_line_cons in H.
  - rewrite !csv_line_cons in H. injection H as H.
    assert (Hr : Some (f, line_tail fs) = Some (f', line_tail fs')).
    { rewrite <- (read_field_double_quotes f (line_tail fs))
        by apply line_tail_no_quote.
      rewrite <- (read_field_double_quotes f' (line_tail fs'))
        by apply line_tail_no_quote.
      by rewrite H. }
    injection Hr as -> Ht. f_equal. apply IH.
    destruct fs as [|g fs], fs' as [|g' fs']; [done..|].
    unfold line_tail in Ht. by injection Ht.
Qed.

End OutputFacts.

(** X15. The CSV output loses nothing of the fields it is given: two
    lists of fields give the same line only when they are the same
    list, whatever quotes and commas the fields hold, and a field can be
    read back from the line. *)
Theorem csv_line_is_lossless (fields fields' : list string) (f : string) :
  (Cli.csv_line fields = Cli.csv_line fields' ↔ fields = fields')
  ∧ Cli.read_field (Cli.double_quotes f +:+ String Cli.dquote (Cli.line_tail fields))
    = Some (f, Cli.line_tail fields)
  ∧ Cli.csv_line (f :: fields)
    = String Cli.dquote
        (Cli.double_quotes f +:+ String Cli.dquote (Cli.line_tail fields)).
Proof.
  split; [split; [apply csv_line_inj|by intros ->]|].
  split; [apply read_field_double_quotes, line_tail_no_quote|apply csv_line_cons].
Qed.

Section TableFacts.
Import Cli.
Context (package_name : IndexEntry -> option string).

Lemma repeat_char_length (c : ascii) (n : nat) :
  String.length (repeat_char c n) = n.
Proof. induction n as [|n IH]; cbn; [done|]. by rewrite IH. Qed.

Lemma padEnd_length (s : string) (n : nat) :
  String.length s ≤ n → String.length (padEnd s n) = n.
Proof.
  intros H. unfold padEnd. rewrite string_length_app, repeat_char_length. lia.
Qed.

Lemma max_of_least (least : nat) (lengths : list nat) :
  least ≤ max_of least lengths.
Proof.
  induction lengths as [|x l IH]; [done|].
  change (least ≤ Nat.max x (max_of least l)). lia.
Qed.

Lemma max_of_elem (least : nat) (lengths : list nat) (x : nat) :
  x ∈ lengths → x ≤ max_of least lengths.
Proof.
  induction lengths as [|y l IH]; [by intros ?%elem_of_nil|].
  intros [Hx|H]%elem_of_cons;
    change (x ≤ Nat.max y (max_of least l)); [lia|]. specialize (IH H). lia.
Qed.

Lemma or_empty_length (o : option string) :
  String.length (or_empty o) = length_or_0 o.
Proof. by destruct o. Qed.

Lemma field_fits (f : IndexEntry → option string) (least : nat)
    (entries : list IndexEntry) (e : IndexEntry) :
  e ∈ entries →
  String.length (or_empty (f e))
  ≤ max_of least (map (fun e => length_or_0 (f e)) entries).
Proof.
  intros He. rewrite or_empty_length. apply max_of_elem.
  apply list_elem_of_fmap. by exists e.
Qed.

Lemma table_line_length (w : Widths) (a b c d : string) :
  String.length a ≤ w_url w → String.length b ≤ w_type w →
  String.length c ≤ w_kind w → String.length d ≤ w_package w →
  String.length
    (padEnd a (w_url w) +:+ " | " +:+ padEnd b (w_type w) +:+ " | "
     +:+ padEnd c (w_kind w) +:+ " | " +:+ padEnd d (w_package w))
  = w_url w + w_type w + w_kind w + w_package w + 9.
Proof.
  intros Ha Hb Hc Hd. rewrite !string_length_app, !padEnd_length by done.
  cbn. lia.
Qed.

End TableFacts.

(** X16. The table is aligned: the columns are at least 30, 15, 10 and
    20 characters wide and as wide as their longest value, and the
    header, the rule under it and every row have one and the same
    length, the four widths and the nine characters of the three
    separators; one row is printed for each entry, in order, before the
    line with the total. *)
Theorem table_lines_are_aligned
    (package_name : IndexEntry -> option string) (entries : list IndexEntry) :
  entries ≠ [] →
  let w := Cli.cols package_name entries in
  let width := Cli.w_url w + Cli.w_type w + Cli.w_kind w + Cli.w_package w + 9 in
  30 ≤ Cli.w_url w ∧ 15 ≤ Cli.w_type w ∧ 10 ≤ Cli.w_kind w ∧ 20 ≤ Cli.w_package w
  ∧ Cli.formatTable package_name entries
    = Cli.table_header w :: Cli.table_rule w
      :: map (Cli.table_row package_name w) entries
      ++ [Cli.table_total entries]
  ∧ String.length (Cli.table_header w) = width
  ∧ String.length (Cli.table_rule w) = width
  ∧ (∀ e, e ∈ entries →
       String.length (Cli.table_row package_name w e) = width
       ∧ String.length (Cli.or_empty (e_url e)) ≤ Cli.w_url w
       ∧ String.length (Cli.or_empty (e_type e)) ≤ Cli.w_type w
       ∧ String.length (Cli.or_empty (e_kind e)) ≤ Cli.w_kind w
       ∧ String.length (Cli.or_empty (package_name e)) ≤ Cli.w_package w).
Proof.
  intros Hne w width.
  assert (H30 : 30 ≤ Cli.w_url w) by apply max_of_least.
  assert (H15 : 15 ≤ Cli.w_type w) by apply max_of_least.
  assert (H10 : 10 ≤ Cli.w_kind w) by apply max_of_least.
  assert (H20 : 20 ≤ Cli.w_package w) by apply max_of_least.
  split_and!; [done..| | | |].
  - by destruct entries.
  - unfold Cli.table_header. apply table_line_length.
    + change (3 ≤ Cli.w_url w). lia.
    + change (4 ≤ Cli.w_type w). lia.
    + change (4 ≤ Cli.w_kind w). lia.
    + change (7 ≤ Cli.w_package w). lia.
  - unfold Cli.table_rule. apply repeat_char_length.
  - intros e He.
    assert (Hu := field_fits e_url 30 entries e He).
    assert (Ht := field_fits e_type 15 entries e He).
    assert (Hk := field_fits e_kind 10 entries e He).
    assert (Hp := field_fits package_name 20 entries e He).
    split_and!; [|done..].
    unfold Cli.table_row. by apply table_line_length.
Qed.

Lemma table_lines_are_aligned_witness :
  String.length
    (Cli.table_row Samples.package_name
       (Cli.cols Samples.package_name [patient_entry; entry_without_url])
       entry_without_url)
  = String.length
      (Cli.table_header
         (Cli.cols Samples.package_name [patient_entry; entry_without_url]))
  ∧ Cli.w_url (Cli.cols Samples.package_name [patient_entry; entry_without_url]) = 47.
Proof.
  destruct (table_lines_are_aligned Samples.package_name
              [patient_entry; entry_without_url])
    as (_ & _ & _ & _ & _ & Hh & _ & Hrows); [discriminate|].
  destruct (Hrows entry_without_url) as [Hr _];
    [apply elem_of_cons; right; apply elem_of_cons; by left|].
  split; [by rewrite Hr, Hh|reflexivity].
Defined.
